(** * Weather dashboard: the React component [App] and its two provider variants

    The repository holds one component, in two versions:
    - [src/App.tsx] queries weatherapi.com with a key in the query string,
      reshapes the answer into [WeatherData] and picks the background by
      substring matching ([WeatherApi] below);
    - the earlier version queries a RapidAPI endpoint with key and host
      headers, stores the answer as received and picks the background by
      property lookup ([RapidApi] below).

    The embedding follows the TypeScript text.  A response body is a parsed
    JSON value, untyped at run time as in the source ([response.data] has
    type [any]); member access on [null] or [undefined] throws.  The hooks'
    setters are modelled as writes to a component state, each write also
    appended to a log, and an exception leaves the writes made before it
    in place. *)

From Stdlib Require Import String Ascii List Bool ZArith QArith Qround Lia.
From Stdlib Require Import DecimalString Permutation Lqa.
Import ListNotations.

Set Warnings "-register-all".

Local Open Scope string_scope.
Local Open Scope list_scope.

(* ================================================================== *)
(** ** The JavaScript values the component handles *)
(* ================================================================== *)

Module Js.

(** A value obtained from [JSON.parse], or [undefined] (a missing
    property).  A JSON number is finite; it is kept as the exact rational
    that its literal denotes (binary rounding is not modelled).
    [JObj] lists the own properties of the object, the first binding of a
    name being the one that a read finds. *)
Inductive JsVal : Type :=
| JUndefined
| JNull
| JBool (b : bool)
| JNum (q : Q)
| JStr (s : string)
| JArr (items : list JsVal)
| JObj (fields : list (string * JsVal)).

Inductive JsError : Type :=
| TypeError
| AxiosError (status : option Z).

(** The completion of an expression: a value, or a thrown exception. *)
Inductive Completion (A : Type) : Type :=
| Normal (a : A)
| Throw (e : JsError).

Arguments Normal {A} a.
Arguments Throw {A} e.

Definition cbind {A B} (c : Completion A) (k : A -> Completion B)
  : Completion B :=
  match c with
  | Normal a => k a
  | Throw e => Throw e
  end.

Definition completes {A} (c : Completion A) : bool :=
  match c with Normal _ => true | Throw _ => false end.

Declare Scope completion_scope.
Delimit Scope completion_scope with completion.
Notation "x <-- c ;; k" := (cbind c (fun x => k))
  (at level 61, c at next level, right associativity) : completion_scope.

(** A number as [ToNumber] and [Math.round] yield it. *)
Inductive JsNumber : Type :=
| Finite (q : Q)
| NaN
| PosInfinity
| NegInfinity.

(** Own-property lookup in a property list. *)
Fixpoint own_property {V} (name : string) (fields : list (string * V))
  : option V :=
  match fields with
  | [] => None
  | (k, v) :: rest => if (k =? name)%string then Some v
                      else own_property name rest
  end.

(** [v.name] for a name that no built-in prototype defines (every name the
    component reads from a response is such a name: location, name,
    current, condition, code, text, icon, temp_c, feelslike_c,
    pressure_mb, humidity, weather, main). *)
Definition get (v : JsVal) (name : string) : Completion JsVal :=
  match v with
  | JUndefined | JNull => Throw TypeError
  | JObj fields =>
      match own_property name fields with
      | Some x => Normal x
      | None => Normal JUndefined
      end
  | _ => Normal JUndefined
  end.

(** [v.a.b.c]: member accesses chained left to right. *)
Fixpoint path (v : JsVal) (names : list string) : Completion JsVal :=
  match names with
  | [] => Normal v
  | name :: rest => cbind (get v name) (fun x => path x rest)
  end.

(** [v[0]]: the first element of an array, the first code unit of a
    string, the own property named 0 of an object. *)
Definition get_index0 (v : JsVal) : Completion JsVal :=
  match v with
  | JUndefined | JNull => Throw TypeError
  | JArr [] => Normal JUndefined
  | JArr (x :: _) => Normal x
  | JStr EmptyString => Normal JUndefined
  | JStr (String c _) => Normal (JStr (String c EmptyString))
  | JObj fields =>
      match own_property "0" fields with
      | Some x => Normal x
      | None => Normal JUndefined
      end
  | _ => Normal JUndefined
  end.

(** [v?.name]: [undefined] when [v] is [null] or [undefined]. *)
Definition get_optional (v : JsVal) (name : string) : Completion JsVal :=
  match v with
  | JUndefined | JNull => Normal JUndefined
  | _ => get v name
  end.

(** [value && ...] and [value || ...] test truthiness. *)
Definition truthy (v : JsVal) : bool :=
  match v with
  | JUndefined | JNull => false
  | JBool b => b
  | JNum q => negb (Qeq_bool q 0)
  | JStr s => negb (s =? "")%string
  | JArr _ | JObj _ => true
  end.

(** [String.prototype.includes]: [sub] occurs in [s] as a contiguous run.
    Strings are byte strings here; every keyword searched for is ASCII, and
    an ASCII run occurs in a text exactly where its bytes occur. *)
Fixpoint includes (s sub : string) : bool :=
  prefix sub s
  || match s with
     | EmptyString => false
     | String _ rest => includes rest sub
     end.

(** [desc.includes(condition)] on an untyped [desc]: a string searches for
    a substring, an array for an element equal to the string, and nothing
    else has a callable [includes]. *)
Definition is_string (sub : string) (v : JsVal) : bool :=
  match v with
  | JStr s => (s =? sub)%string
  | _ => false
  end.

Definition call_includes (desc : JsVal) (condition : string)
  : Completion bool :=
  match desc with
  | JStr s => Normal (includes s condition)
  | JArr items => Normal (existsb (is_string condition) items)
  | _ => Throw TypeError
  end.

(** [descs.some((desc) => desc.includes(condition))]: left to right, stops
    at the first [true]; an exception of the callback propagates. *)
Fixpoint some_includes (descs : list JsVal) (condition : string)
  : Completion bool :=
  match descs with
  | [] => Normal false
  | desc :: rest =>
      cbind (call_includes desc condition)
            (fun b => if b then Normal true else some_includes rest condition)
  end.

(** [Math.round] on a number: the nearest integer, a tie going up. *)
Definition Math_round (n : JsNumber) : JsNumber :=
  match n with
  | Finite q => Finite (inject_Z (Qfloor (q + (1 # 2))))
  | other => other
  end.

(** Decimal digits of an integer, with a minus sign below zero. *)
Definition decimal (z : Z) : string :=
  NilZero.string_of_int (Z.to_int z).

Definition is_integer (q : Q) : bool :=
  Qeq_bool q (inject_Z (Qfloor q)).

(** What the language does and this development does not spell out: the
    conversion of numbers, arrays and objects to a string (which can throw
    on an object whose conversion methods are shadowed), of strings, arrays
    and objects to a number, and the printing of a number that is not an
    integer of magnitude at most 2^53 (those print as their decimal
    digits). *)
Class Conversions : Type := {
  ToString_other : JsVal -> Completion string;
  ToNumber_other : JsVal -> Completion JsNumber;
  NumberToString_other : JsNumber -> string
}.

Section WithConversions.
Context {conv : Conversions}.

(** [ToString], as a template literal and a property key apply it. *)
Definition ToString (v : JsVal) : Completion string :=
  match v with
  | JStr s => Normal s
  | JUndefined => Normal "undefined"
  | JNull => Normal "null"
  | JBool true => Normal "true"
  | JBool false => Normal "false"
  | _ => ToString_other v
  end.

Definition ToNumber (v : JsVal) : Completion JsNumber :=
  match v with
  | JNum q => Normal (Finite q)
  | JUndefined => Normal NaN
  | JNull => Normal (Finite 0)
  | JBool true => Normal (Finite 1)
  | JBool false => Normal (Finite 0)
  | _ => ToNumber_other v
  end.

Definition NumberToString (n : JsNumber) : string :=
  match n with
  | NaN => "NaN"
  | PosInfinity => "Infinity"
  | NegInfinity => "-Infinity"
  | Finite q =>
      if is_integer q && (Z.abs (Qfloor q) <=? 2 ^ 53)%Z
      then decimal (Qfloor q)
      else NumberToString_other n
  end.

End WithConversions.

End Js.

(* ================================================================== *)
(** ** Component state, setters and the HTTP client *)
(* ================================================================== *)

Module Hooks.
Import Js.

(** The five [useState] cells of [App].  [D] is the type of the [data]
    cell and [B] of the [bgImage] cell; they differ between the two
    versions of the component. *)
Record State (D B : Type) : Type := mkState {
  data : D;
  loading : bool;
  city : string;
  bgImage : B;
  error : option string
}.

Arguments mkState {D B}.
Arguments data {D B}.
Arguments loading {D B}.
Arguments city {D B}.
Arguments bgImage {D B}.
Arguments error {D B}.

(** One call of a setter. *)
Inductive Event (D B : Type) : Type :=
| SetData (d : D)
| SetLoading (b : bool)
| SetCity (c : string)
| SetBgImage (u : B)
| SetError (e : option string).

Arguments SetData {D B}.
Arguments SetLoading {D B}.
Arguments SetCity {D B}.
Arguments SetBgImage {D B}.
Arguments SetError {D B}.

(** The state together with the setter calls made so far, oldest first. *)
Record World (D B : Type) : Type := mkWorld {
  state : State D B;
  log : list (Event D B)
}.

Arguments mkWorld {D B}.
Arguments state {D B}.
Arguments log {D B}.

(** Code that reads and writes the state and may throw.  Writes made
    before a throw stay. *)
Definition M (D B A : Type) : Type :=
  World D B -> Completion A * World D B.

Section Monad.
Context {D B : Type}.

Definition ret {A} (a : A) : M D B A := fun w => (Normal a, w).

Definition bind {A C} (m : M D B A) (k : A -> M D B C) : M D B C :=
  fun w =>
    match m w with
    | (Normal a, w') => k a w'
    | (Throw e, w') => (Throw e, w')
    end.

(** A pure expression evaluated in place. *)
Definition eval {A} (c : Completion A) : M D B A := fun w => (c, w).

Definition read_city : M D B string := fun w => (Normal (city (state w)), w).

Definition write (f : State D B -> State D B) (e : Event D B) : M D B unit :=
  fun w => (Normal tt, mkWorld (f (state w)) (log w ++ [e])).

Definition setData (d : D) : M D B unit :=
  write (fun s => mkState d (loading s) (city s) (bgImage s) (error s))
        (SetData d).

Definition setLoading (b : bool) : M D B unit :=
  write (fun s => mkState (data s) b (city s) (bgImage s) (error s))
        (SetLoading b).

Definition setCity (c : string) : M D B unit :=
  write (fun s => mkState (data s) (loading s) c (bgImage s) (error s))
        (SetCity c).

Definition setBgImage (u : B) : M D B unit :=
  write (fun s => mkState (data s) (loading s) (city s) u (error s))
        (SetBgImage u).

Definition setError (e : option string) : M D B unit :=
  write (fun s => mkState (data s) (loading s) (city s) (bgImage s) e)
        (SetError e).

(** [try { body } catch (e) { handler e } finally { cleanup }] *)
Definition try_catch_finally {A} (body : M D B A)
    (handler : JsError -> M D B A) (cleanup : M D B unit) : M D B A :=
  fun w =>
    let '(r, w1) :=
      match body w with
      | (Normal a, w') => (Normal a, w')
      | (Throw e, w') => handler e w'
      end in
    match cleanup w1 with
    | (Normal _, w2) => (r, w2)
    | (Throw e, w2) => (Throw e, w2)
    end.

(** Running a handler from a given state with an empty log. *)
Definition run {A} (m : M D B A) (s : State D B)
  : Completion A * World D B := m (mkWorld s []).

Definition final_state {A} (m : M D B A) (s : State D B) : State D B :=
  state (snd (run m s)).

Definition calls {A} (m : M D B A) (s : State D B) : list (Event D B) :=
  log (snd (run m s)).

Definition outcome {A} (m : M D B A) (s : State D B) : Completion A :=
  fst (run m s).

End Monad.

Declare Scope js_scope.
Delimit Scope js_scope with js.
Notation "x <- m ;; k" := (bind m (fun x => k))
  (at level 61, m at next level, right associativity) : js_scope.
Notation "m ;; k" := (bind m (fun _ => k))
  (at level 61, right associativity) : js_scope.

(** What the network returns for one request. *)
Inductive HttpResult : Type :=
| NetworkFailure
| HttpResponse (status : Z) (body : JsVal).

Record AxiosResponse : Type := mkResponse {
  response_status : Z;
  response_data : JsVal
}.

(** axios resolves on a 2xx status (its default [validateStatus]) and
    rejects otherwise. *)
Definition axios_settle (r : HttpResult) : Completion AxiosResponse :=
  match r with
  | NetworkFailure => Throw (AxiosError None)
  | HttpResponse status body =>
      if ((200 <=? status) && (status <? 300))%Z
      then Normal (mkResponse status body)
      else Throw (AxiosError (Some status))
  end.

(** An environment variable inside a template literal. *)
Definition env_text (v : option string) : string :=
  match v with
  | Some s => s
  | None => "undefined"
  end.

Definition error_message : string := "City not found. Please try again.".

End Hooks.

(* ================================================================== *)
(** ** [src/App.tsx]: the weatherapi.com version *)
(* ================================================================== *)

Module Weather.
Import Js.
(** [interface Weather]; the fields hold what the response held. *)
Record t : Type := mk {
  id : JsVal;
  main : JsVal;
  description : JsVal;
  icon : string
}.
End Weather.

Module Main.
Import Js.
(** [interface Main] *)
Record t : Type := mk {
  temp : JsVal;
  feels_like : JsVal;
  temp_min : JsVal;
  temp_max : JsVal;
  pressure : JsVal;
  humidity : JsVal
}.
End Main.

Module WeatherData.
Import Js.
(** [interface WeatherData] *)
Record t : Type := mk {
  name : JsVal;
  weather : list Weather.t;
  main : Main.t
}.
End WeatherData.

Module WeatherApi.
Import Js Hooks.
Local Open Scope js_scope.
Local Open Scope completion_scope.

(** The object literal [backgroundImages]; [Object.entries] lists its
    properties in the order written (no key is an array index). *)
Definition backgroundImages : list (string * string) :=
  [ ("Clear", "https://images.unsplash.com/photo-1601134467661-3a775e007848");
    ("Clouds", "https://images.unsplash.com/photo-1483977399921-6cf94f6fdc3a");
    ("Rain", "https://images.unsplash.com/photo-1438449805895-5918d2267f19");
    ("Snow", "https://images.unsplash.com/photo-1491002052546-bf38f186af56");
    ("Moderate snow showers", "https://example.com/moderate-snow-image.jpg");
    ("Heavy snow showers", "https://example.com/heavy-snow-image.jpg");
    ("Thunderstorm",
     "https://images.unsplash.com/photo-1530533718754-001d3088360a");
    ("default", "https://images.unsplash.com/photo-1504608524841-42fe6f032b5b")
  ].

(** [table.name] on such a literal, as a string ([undefined] does not
    arise for a name the literal has). *)
Definition member (table : list (string * string)) (name : string) : string :=
  match own_property name table with
  | Some url => url
  | None => "undefined"
  end.

Definition State : Type := Hooks.State (option WeatherData.t) string.
Definition Event : Type := Hooks.Event (option WeatherData.t) string.
Definition Handler (A : Type) : Type := M (option WeatherData.t) string A.

(** The initial values given to [useState]. *)
Definition initial : State := mkState None false "skardu" "" None.

(** The [for ... of Object.entries(backgroundImages)] loop of
    [updateBackground] with its early [return], followed by the fallback. *)
Fixpoint scan (entries : list (string * string)) (descs : list JsVal)
  : Handler unit :=
  match entries with
  | [] => setBgImage (member backgroundImages "default")
  | (condition, url) :: rest =>
      hit <- eval (some_includes descs condition) ;;
      if hit then setBgImage url else scan rest descs
  end.

Definition updateBackground (weatherArr : list Weather.t) : Handler unit :=
  let weatherDescriptions := map Weather.description weatherArr in
  scan backgroundImages weatherDescriptions.

(** The API key and the network. *)
Class Env : Type := {
  VITE_WEATHER_API_KEY : option string;
  http_get : string -> HttpResult
}.

Section Component.
Context {conv : Conversions} {env : Env}.

Definition API_URL (city : string) : string :=
  "https://api.weatherapi.com/v1/current.json?key="
  ++ env_text VITE_WEATHER_API_KEY ++ "&q=" ++ city ++ "&aqi=yes".

(** The object literal assigned to [formattedData], its property values
    evaluated in the order written. *)
Definition formattedData (weatherData : JsVal) : Completion WeatherData.t :=
  name <-- path weatherData ["location"; "name"] ;;
  id <-- path weatherData ["current"; "condition"; "code"] ;;
  main <-- path weatherData ["current"; "condition"; "text"] ;;
  description <-- path weatherData ["current"; "condition"; "text"] ;;
  icon_ref <-- path weatherData ["current"; "condition"; "icon"] ;;
  icon_text <-- ToString icon_ref ;;
  temp <-- path weatherData ["current"; "temp_c"] ;;
  feels_like <-- path weatherData ["current"; "feelslike_c"] ;;
  temp_min <-- path weatherData ["current"; "temp_c"] ;;
  temp_max <-- path weatherData ["current"; "temp_c"] ;;
  pressure <-- path weatherData ["current"; "pressure_mb"] ;;
  humidity <-- path weatherData ["current"; "humidity"] ;;
  Normal (WeatherData.mk name
            [Weather.mk id main description ("https:" ++ icon_text)]
            (Main.mk temp feels_like temp_min temp_max pressure humidity)).

(** [fetchData] up to its [await]: the two setter calls and the request. *)
Definition fetchData_begin : Handler string :=
  setLoading true ;;
  setError None ;;
  city <- read_city ;;
  ret (API_URL city).

(** The body of the [try] block once the request has settled. *)
Definition try_block (settled : HttpResult) : Handler unit :=
  response <- eval (axios_settle settled) ;;
  let weatherData := response_data response in
  formatted <- eval (formattedData weatherData) ;;
  setData (Some formatted) ;;
  updateBackground (WeatherData.weather formatted).

Definition catch_block (_ : JsError) : Handler unit :=
  setError (Some error_message) ;;
  setData None.

Definition finally_block : Handler unit := setLoading false.

(** [fetchData] from the [await] on. *)
Definition fetchData_settle (settled : HttpResult) : Handler unit :=
  try_catch_finally (try_block settled) catch_block finally_block.

Definition fetchData : Handler unit :=
  url <- fetchData_begin ;;
  fetchData_settle (http_get url).

(** The fetch fails when its [try] block throws. *)
Definition fetch_fails (s : State) : bool :=
  match run (url <- fetchData_begin ;; try_block (http_get url)) s with
  | (Normal _, _) => false
  | (Throw _, _) => true
  end.

(** [{Math.round(value)}°C], the text of a temperature in the page. *)
Definition degrees (value : JsVal) : Completion string :=
  n <-- ToNumber value ;;
  Normal (NumberToString (Math_round n) ++ "°C")%string.

Definition temperature_text (d : WeatherData.t) : Completion string :=
  degrees (Main.temp (WeatherData.main d)).

Definition feels_like_text (d : WeatherData.t) : Completion string :=
  degrees (Main.feels_like (WeatherData.main d)).

Definition min_temp_text (d : WeatherData.t) : Completion string :=
  degrees (Main.temp_min (WeatherData.main d)).

Definition max_temp_text (d : WeatherData.t) : Completion string :=
  degrees (Main.temp_max (WeatherData.main d)).

End Component.

End WeatherApi.

(* ================================================================== *)
(** ** The RapidAPI version (key and host sent as headers) *)
(* ================================================================== *)

Module RapidApi.
Import Js Hooks.
Local Open Scope js_scope.
Local Open Scope completion_scope.

Definition backgroundImages : list (string * string) :=
  [ ("Clear", "https://images.unsplash.com/photo-1601134467661-3a775e007848");
    ("Clouds", "https://images.unsplash.com/photo-1483977399921-6cf94f6fdc3a");
    ("Rain", "https://images.unsplash.com/photo-1438449805895-5918d2267f19");
    ("Snow", "https://images.unsplash.com/photo-1491002052546-bf38f186af56");
    ("Thunderstorm",
     "https://images.unsplash.com/photo-1530533718754-001d3088360a");
    ("default", "https://images.unsplash.com/photo-1504608524841-42fe6f032b5b")
  ].

(** The properties that an object literal inherits from
    [Object.prototype]: eleven functions and the accessor [__proto__],
    which yields the prototype object. *)
Definition Object_prototype : list string :=
  [ "constructor"; "__defineGetter__"; "__defineSetter__"; "hasOwnProperty";
    "__lookupGetter__"; "__lookupSetter__"; "isPrototypeOf";
    "propertyIsEnumerable"; "toString"; "valueOf"; "__proto__";
    "toLocaleString" ].

(** What [backgroundImages[key]] evaluates to. *)
Inductive Member : Type :=
| Own (url : string)
| FromPrototype (name : string)
| Missing.

Definition lookup (key : string) : Member :=
  match own_property key backgroundImages with
  | Some url => Own url
  | None =>
      if existsb (String.eqb key) Object_prototype
      then FromPrototype key
      else Missing
  end.

(** What is handed to [setBgImage]: a URL of the table, or a member of
    [Object.prototype] named by the key.  The [bgImage] cell records the
    value handed to the setter; what React makes of a function handed to a
    setter (it calls it as an updater) is not followed further. *)
Inductive Image : Type :=
| Url (url : string)
| Inherited (name : string).

Definition default_url : string :=
  match own_property "default" backgroundImages with
  | Some url => url
  | None => "undefined"
  end.

(** [found || backgroundImages.default]: the left operand when it is
    truthy (a non-empty string, a function, an object). *)
Definition or_default (found : Member) : Image :=
  match found with
  | Own url => if (url =? "")%string then Url default_url else Url url
  | FromPrototype name => Inherited name
  | Missing => Url default_url
  end.

Definition State : Type := Hooks.State JsVal Image.
Definition Event : Type := Hooks.Event JsVal Image.
Definition Handler (A : Type) : Type := M JsVal Image A.

(** The initial values given to [useState]. *)
Definition initial : State := mkState JNull false "skardu" (Url "") None.

Record Headers : Type := mkHeaders {
  x_rapidapi_key : option string;
  x_rapidapi_host : option string
}.

Record Options : Type := mkOptions {
  method : string;
  url : string;
  headers : Headers
}.

Class Env : Type := {
  VITE_RAPID_API_KEY : option string;
  VITE_RAPID_HOST_URL : option string;
  http_request : Options -> HttpResult
}.

Section Component.
Context {conv : Conversions} {env : Env}.

(** [updateBackground(weather)]; the argument is used as a property key,
    hence converted to a string. *)
Definition updateBackground (weather : JsVal) : Handler unit :=
  key <- eval (ToString weather) ;;
  let imageUrl := or_default (lookup key) in
  setBgImage imageUrl.

(** The object literal [options]. *)
Definition options_for (city : string) : Options :=
  mkOptions "GET"
    ("https://open-weather13.p.rapidapi.com/city/" ++ city ++ "/EN")
    (mkHeaders VITE_RAPID_API_KEY VITE_RAPID_HOST_URL).

Definition fetchData_begin : Handler Options :=
  setLoading true ;;
  setError None ;;
  city <- read_city ;;
  ret (options_for city).

(** [response.data.weather[0]?.main] *)
Definition first_main (response_data : JsVal) : Completion JsVal :=
  weather <-- get response_data "weather" ;;
  first <-- get_index0 weather ;;
  get_optional first "main".

Definition try_block (settled : HttpResult) : Handler unit :=
  response <- eval (axios_settle settled) ;;
  setData (response_data response) ;;
  main <- eval (first_main (response_data response)) ;;
  updateBackground main.

Definition catch_block (_ : JsError) : Handler unit :=
  setError (Some error_message) ;;
  setData JNull.

Definition finally_block : Handler unit := setLoading false.

Definition fetchData_settle (settled : HttpResult) : Handler unit :=
  try_catch_finally (try_block settled) catch_block finally_block.

Definition fetchData : Handler unit :=
  options <- fetchData_begin ;;
  fetchData_settle (http_request options).

Definition fetch_fails (s : State) : bool :=
  match run (options <- fetchData_begin ;; try_block (http_request options)) s
  with
  | (Normal _, _) => false
  | (Throw _, _) => true
  end.

End Component.

End RapidApi.

(* ================================================================== *)
(** ** Vocabulary of the properties, and sample inputs *)
(* ================================================================== *)

Module Props.
Import Js Hooks.



(** Position of a key in insertion order. *)
Fixpoint position (key : string) (table : list (string * string))
  : option nat :=
  match table with
  | [] => None
  | (k, _) :: rest =>
      if (k =? key)%string then Some 0%nat
      else option_map S (position key rest)
  end.

(** [listed_before a b table]: both keys occur and [a] comes first. *)
Definition listed_before (a b : string) (table : list (string * string))
  : bool :=
  match position a table, position b table with
  | Some i, Some j => (i <? j)%nat
  | _, _ => false
  end.

(** The first entry of the table whose key is one of [keys]. *)
Definition first_listed (keys : list string)
    (table : list (string * string)) : option (string * string) :=
  find (fun entry => existsb (String.eqb (fst entry)) keys) table.

(** [matches descs key]: the key is a substring of some description. *)
Definition matches (descs : list string) (key : string) : bool :=
  existsb (fun desc => includes desc key) descs.


(** The URL that a first-match scan of [entries] yields. *)
Fixpoint pick (entries : list (string * string)) (descs : list string)
    (fallback : string) : string :=
  match entries with
  | [] => fallback
  | (key, url) :: rest =>
      if matches descs key then url else pick rest descs fallback
  end.

(** The URL that the scan of [entries] selects for untyped descriptions,
    or the exception that the substring test throws. *)
Fixpoint selection (entries : list (string * string)) (descs : list JsVal)
    (fallback : string) : Completion string :=
  match entries with
  | [] => Normal fallback
  | (key, url) :: rest =>
      cbind (some_includes descs key)
            (fun hit => if hit then Normal url
                        else selection rest descs fallback)
  end.

(** A [Weather] element as [fetchData] builds it from a condition text. *)
Definition weather_of (text : string) : Weather.t :=
  Weather.mk (JNum 1000) (JStr text) (JStr text) "https://cdn/icon.png".

(** Conversions for the worked examples; none of the examples reaches a
    conversion that the development leaves open. *)
Definition sample_conversions : Conversions :=
  {| ToString_other := fun _ => Throw TypeError;
     ToNumber_other := fun _ => Normal NaN;
     NumberToString_other := fun _ => "" |}.

(** A weatherapi.com body with the given condition text and temperature. *)
Definition current_json (text : JsVal) (temp_c : Q) : JsVal :=
  JObj [ ("location", JObj [ ("name", JStr "Skardu") ]);
         ("current",
          JObj [ ("temp_c", JNum temp_c);
                 ("condition",
                  JObj [ ("text", text);
                         ("icon", JStr "//cdn.weatherapi.com/113.png");
                         ("code", JNum 1000) ]);
                 ("pressure_mb", JNum 1012);
                 ("humidity", JNum 40);
                 ("feelslike_c", JNum temp_c) ]) ].

(** A snapshot on display before a fetch. *)
Definition sample_snapshot : WeatherData.t :=
  WeatherData.mk (JStr "Oslo") [weather_of "Clear"]
    (Main.mk (JNum 3) (JNum 1) (JNum 3) (JNum 3) (JNum 1020) (JNum 80)).

Definition showing_oslo : WeatherApi.State :=
  mkState (Some sample_snapshot) false "Atlantis"
    "https://images.unsplash.com/photo-1601134467661-3a775e007848" None.

(** A network that answers every request of [App.tsx] the same way. *)
Definition answering (r : HttpResult) : WeatherApi.Env :=
  {| WeatherApi.VITE_WEATHER_API_KEY := Some "key";
     WeatherApi.http_get := fun _ => r |}.

(** An OpenWeather body whose first weather element has the given [main]. *)
Definition city_json (main : JsVal) : JsVal :=
  JObj [ ("name", JStr "Skardu");
         ("weather", JArr [ JObj [ ("main", main) ] ]);
         ("main", JObj [ ("temp", JNum 21.6) ]) ].

(** The body of an answer that reports an unknown city with status 200. *)
Definition not_found_json : JsVal :=
  JObj [ ("cod", JStr "404"); ("message", JStr "city not found") ].

Definition rapid_answering (r : HttpResult) : RapidApi.Env :=
  {| RapidApi.VITE_RAPID_API_KEY := Some "key";
     RapidApi.VITE_RAPID_HOST_URL := Some "open-weather13.p.rapidapi.com";
     RapidApi.http_request := fun _ => r |}.

(** What the page shows: the block under [data && ...] and the block
    under [error && ...]. *)
Definition shown {A} (cell : option A) : bool :=
  match cell with Some _ => true | None => false end.

Definition error_shown (cell : option string) : bool :=
  match cell with
  | Some message => negb (message =? "")%string
  | None => false
  end.

(** The component while its request is in flight: [fetchData] has run up
    to the [await]. *)
Definition begun {D B} (s : State D B) : World D B :=
  mkWorld (mkState (data s) true (city s) (bgImage s) None)
          [SetLoading true; SetError None].

End Props.

(* ================================================================== *)
(** ** The event handlers of the JSX, shared by both versions *)
(* ================================================================== *)

Module Events.
Import Js Hooks.
Local Open Scope js_scope.

(** What the component reacts to: the effect that runs once after the
    first render, a change of the input box, a key pressed in it, and a
    click on the button. *)
Inductive Input : Type :=
| Mount
| Change (value : string)
| KeyPress (key : string)
| Click.

(** A finer view, in which a request and its answer are separate steps:
    [Issue] runs [fetchData] up to its [await], [Arrive request] resumes
    the invocation that sent [request]. *)
Inductive Step (R : Type) : Type :=
| Issue
| Edit (value : string)
| Arrive (request : R).

Arguments Issue {R}.
Arguments Edit {R}.
Arguments Arrive {R}.

Section Wiring.
Context {D B R : Type}.
Variable fetchData : M D B unit.
Variable fetchData_begin : M D B R.
Variable resume : R -> M D B unit.

(** [onChange={(e) => setCity(e.target.value)}] *)
Definition onChange (value : string) : M D B unit := setCity value.

(** [onKeyPress={(e) => e.key === "Enter" && fetchData()}] *)
Definition onKeyPress (key : string) : M D B unit :=
  if (key =? "Enter")%string then fetchData else ret tt.

(** [onClick={fetchData}] and [useEffect(() => { fetchData(); }, [])] *)
Definition handle (input : Input) : M D B unit :=
  match input with
  | Mount => fetchData
  | Change value => onChange value
  | KeyPress key => onKeyPress key
  | Click => fetchData
  end.

(** Inputs handled one after the other, each fetch settling before the
    next input. *)
Fixpoint session (inputs : list Input) : M D B unit :=
  match inputs with
  | [] => ret tt
  | input :: rest => handle input ;; session rest
  end.

Definition step (st : Step R) : M D B unit :=
  match st with
  | Issue => fetchData_begin ;; ret tt
  | Edit value => onChange value
  | Arrive request => resume request
  end.

Fixpoint steps (sts : list (Step R)) : M D B unit :=
  match sts with
  | [] => ret tt
  | st :: rest => step st ;; steps rest
  end.

End Wiring.

End Events.

(* ================================================================== *)
(** ** The rest of [src/App.tsx]: handlers and conditional blocks *)
(* ================================================================== *)

Module WeatherPage.
Import Js Hooks Props WeatherApi.
Local Open Scope completion_scope.

(** One tile of the grid built from the array literal. *)
Record Stat : Type := mkStat {
  title : string;
  value : string;
  color : string
}.

(** The block under [data && ...].  [heading] and [condition] are the
    values handed to React as children; the other fields are the texts
    that the component builds itself. *)
Record DataBlock : Type := mkBlock {
  heading : JsVal;
  condition : JsVal;
  temperature : string;
  stats : list Stat;
  min_temp : string;
  max_temp : string
}.

(** The input box and the three conditional blocks. *)
Record Blocks : Type := mkBlocks {
  input_value : string;
  spinner : bool;
  weather_block : option DataBlock;
  error_block : option string
}.

(** [data.weather[0]?.description] *)
Definition first_description (weather : list Weather.t) : JsVal :=
  match weather with
  | [] => JUndefined
  | first :: _ => Weather.description first
  end.

Section Page.
Context {conv : Conversions} {env : Env}.

Definition handle : Events.Input -> Handler unit :=
  Events.handle fetchData.

Definition session : list Events.Input -> Handler unit :=
  Events.session fetchData.

(** The invocation that requested [url] resumes with the network's answer
    for it. *)
Definition resume (url : string) : Handler unit :=
  fetchData_settle (http_get url).

Definition steps : list (Events.Step string) -> Handler unit :=
  Events.steps fetchData_begin resume.

(** The expressions inside the data block, in the order written. *)
Definition weather_block_of (d : WeatherData.t) : Completion DataBlock :=
  temperature <-- temperature_text d ;;
  feels <-- feels_like_text d ;;
  humidity <-- ToString (Main.humidity (WeatherData.main d)) ;;
  pressure <-- ToString (Main.pressure (WeatherData.main d)) ;;
  lowest <-- min_temp_text d ;;
  highest <-- max_temp_text d ;;
  Normal (mkBlock (WeatherData.name d)
            (first_description (WeatherData.weather d))
            temperature
            [ mkStat "Feels like" feels "bg-red-500/20";
              mkStat "Humidity" (humidity ++ "%") "bg-green-500/20";
              mkStat "Pressure" (pressure ++ "hPa") "bg-blue-500/20" ]
            lowest highest).

(** What the component function returns for a state: [loading && ...],
    [data && ...] and [error && ...]; an empty error string is falsy. *)
Definition blocks (s : State) : Completion Blocks :=
  weather <-- match data s with
              | None => Normal None
              | Some d => block <-- weather_block_of d ;; Normal (Some block)
              end ;;
  Normal (mkBlocks (city s) (loading s) weather
            (if error_shown (error s) then error s else None)).

(** Whether the [try] block accepts an answer; it reads nothing of the
    state. *)
Definition accepted (settled : HttpResult) : bool :=
  completes (fst (try_block settled (mkWorld initial []))).

End Page.

End WeatherPage.

(* ================================================================== *)
(** ** The rest of the RapidAPI version: handlers and conditional blocks *)
(* ================================================================== *)

Module RapidPage.
Import Js Hooks Props RapidApi.
Local Open Scope completion_scope.

(** The outcome of [data && (...)]: the falsy [data] itself, or the
    block. *)
Inductive Slot (A : Type) : Type :=
| Nothing (handed : JsVal)
| Shown (block : A).

Arguments Nothing {A}.
Arguments Shown {A}.

(** The block under [data && ...]: the values handed to React as children
    and the texts that the component builds itself. *)
Record DataBlock : Type := mkBlock {
  heading : JsVal;
  condition : JsVal;
  icon_src : string;
  temperature : string;
  feels_like : string;
  humidity : JsVal;
  pressure : JsVal;
  min_temp : string;
  max_temp : string
}.

Record Blocks : Type := mkBlocks {
  input_value : string;
  spinner : bool;
  weather_block : Slot DataBlock;
  error_block : option string
}.

Section Page.
Context {conv : Conversions} {env : Env}.

Definition handle : Events.Input -> Handler unit :=
  Events.handle fetchData.

Definition session : list Events.Input -> Handler unit :=
  Events.session fetchData.

Definition resume (options : Options) : Handler unit :=
  fetchData_settle (http_request options).

Definition steps : list (Events.Step Options) -> Handler unit :=
  Events.steps fetchData_begin resume.

(** [{Math.round(value)}] followed by the two characters that the file
    has after it. *)
Definition degrees (value : JsVal) : Completion string :=
  n <-- ToNumber value ;;
  Normal (NumberToString (Math_round n) ++ "째C")%string.

(** [data.weather[0]?.name] *)
Definition first_weather (data : JsVal) (name : string) : Completion JsVal :=
  weather <-- get data "weather" ;;
  first <-- get_index0 weather ;;
  get_optional first name.

(** [Math.round(data.main.name)] with its suffix *)
Definition main_degrees (data : JsVal) (name : string) : Completion string :=
  main <-- get data "main" ;;
  value <-- get main name ;;
  degrees value.

(** The expressions inside the data block, in the order written. *)
Definition weather_block_of (data : JsVal) : Completion DataBlock :=
  name <-- get data "name" ;;
  description <-- first_weather data "description" ;;
  icon <-- first_weather data "icon" ;;
  icon_text <-- ToString icon ;;
  temperature <-- main_degrees data "temp" ;;
  feels <-- main_degrees data "feels_like" ;;
  humidity <-- path data ["main"; "humidity"] ;;
  pressure <-- path data ["main"; "pressure"] ;;
  lowest <-- main_degrees data "temp_min" ;;
  highest <-- main_degrees data "temp_max" ;;
  Normal (mkBlock name description
            ("https://openweathermap.org/img/wn/" ++ icon_text ++ "@4x.png")
            temperature feels humidity pressure lowest highest).

Definition blocks (s : State) : Completion Blocks :=
  weather <-- (if truthy (data s)
               then block <-- weather_block_of (data s) ;; Normal (Shown block)
               else Normal (Nothing (data s))) ;;
  Normal (mkBlocks (city s) (loading s) weather
            (if error_shown (error s) then error s else None)).

End Page.

End RapidPage.

(* ================================================================== *)
(** ** Further vocabulary *)
(* ================================================================== *)

Module Notions.
Import Js Hooks Props.

(** [null] or [undefined]: the values on which member access throws. *)
Definition nullish (v : JsVal) : bool :=
  match v with
  | JUndefined | JNull => true
  | _ => false
  end.

(** The values that have a callable [includes]. *)
Definition searchable (v : JsVal) : bool :=
  match v with
  | JStr _ | JArr _ => true
  | _ => false
  end.

(** A handler that treats the log as a log: it reads nothing of it and
    appends to it. *)
Definition appends_only {D B A} (m : M D B A) : Prop :=
  forall w,
    m w = (outcome m (state w),
           mkWorld (final_state m (state w)) (log w ++ calls m (state w))).

(** A state of [src/App.tsx] with no request in flight: nothing is
    loading, the error is absent or the fixed message, the data and the
    error are not both shown, and the background is the initial empty
    string or a URL of the table. *)
Definition at_rest (s : WeatherApi.State) : Prop :=
  loading s = false
  /\ (error s = None \/ error s = Some error_message)
  /\ shown (data s) && error_shown (error s) = false
  /\ (bgImage s = "" \/ In (bgImage s) (map snd WeatherApi.backgroundImages)).

(** The same for the RapidAPI version, for a background that is the
    initial empty string or a URL of the table. *)
Definition rapid_at_rest (s : RapidApi.State) : Prop :=
  loading s = false
  /\ (error s = None \/ error s = Some error_message)
  /\ truthy (data s) && error_shown (error s) = false
  /\ (bgImage s = RapidApi.Url ""
      \/ (exists url, bgImage s = RapidApi.Url url
                      /\ In url (map snd RapidApi.backgroundImages))).

(** An input that runs no fetch: a change of the box, or a key other
    than "Enter". *)
Definition quiet (input : Events.Input) : bool :=
  match input with
  | Events.Change _ => true
  | Events.KeyPress key => negb (key =? "Enter")%string
  | _ => false
  end.

(** The texts that a list of inputs puts into the box, oldest first. *)
Definition keystrokes (inputs : list Events.Input) : list string :=
  flat_map (fun input =>
              match input with
              | Events.Change value => [value]
              | _ => []
              end) inputs.

(** The text of the input box after a list of inputs. *)
Definition typed (inputs : list Events.Input) (before : string) : string :=
  fold_left (fun text input =>
               match input with
               | Events.Change value => value
               | _ => text
               end) inputs before.

End Notions.

Import Js Hooks Props Notions.

(* ================================================================== *)
(** ** Background selection in [src/App.tsx] *)
(* ================================================================== *)

Section Background.
Import WeatherApi.

Lemma some_includes_strings (descs : list string) (key : string) :
  some_includes (map JStr descs) key = Normal (matches descs key).
Proof.
  induction descs as [|desc rest IH]; simpl; [reflexivity|].
  destruct (includes desc key); simpl; [reflexivity|exact IH].
Qed.

(** On string descriptions the loop is a first-match scan that ends in one
    call of [setBgImage]. *)
Lemma scan_strings (entries : list (string * string)) (descs : list string)
    (w : World (option WeatherData.t) string) :
  scan entries (map JStr descs) w
  = setBgImage (pick entries descs (member backgroundImages "default")) w.
Proof.
  induction entries as [|[key url] rest IH]; simpl; [reflexivity|].
  unfold bind, eval. rewrite some_includes_strings.
  destruct (matches descs key); [reflexivity|exact IH].
Qed.

Lemma pick_first_match (pre post : list (string * string))
    (key url fallback : string) (descs : list string) :
  (forall k u, In (k, u) pre -> matches descs k = false) ->
  matches descs key = true ->
  pick (pre ++ (key, url) :: post) descs fallback = url.
Proof.
  induction pre as [|[k u] pre IH]; simpl; intros Hpre Hkey.
  - now rewrite Hkey.
  - rewrite (Hpre k u) by now left.
    apply IH; [|exact Hkey]. intros k' u' Hin. apply (Hpre k' u'). now right.
Qed.

Lemma pick_no_match (entries : list (string * string)) (fallback : string)
    (descs : list string) :
  (forall k u, In (k, u) entries -> matches descs k = false) ->
  pick entries descs fallback = fallback.
Proof.
  induction entries as [|[k u] rest IH]; simpl; intros Hall; [reflexivity|].
  rewrite (Hall k u) by now left.
  apply IH. intros k' u' Hin. apply (Hall k' u'). now right.
Qed.

(** The scan reads nothing of the state: it makes the one call of
    [setBgImage] that [selection] names, or throws before any write. *)
Lemma scan_selection (entries : list (string * string)) (descs : list JsVal)
    (w : World (option WeatherData.t) string) :
  scan entries descs w
  = match selection entries descs (member backgroundImages "default") with
    | Normal url => setBgImage url w
    | Throw e => (Throw e, w)
    end.
Proof.
  induction entries as [|[key url] rest IH]; simpl; [reflexivity|].
  unfold bind, eval. destruct (some_includes descs key) as [[|]|e]; simpl.
  - reflexivity.
  - exact IH.
  - reflexivity.
Qed.

Lemma scan_cases (entries : list (string * string)) (descs : list JsVal)
    (w : World (option WeatherData.t) string) :
  (exists url, scan entries descs w = setBgImage url w)
  \/ (exists e, scan entries descs w = (Throw e, w)).
Proof.
  rewrite scan_selection.
  destruct (selection entries descs _) as [url|e]; [left|right]; eauto.
Qed.

End Background.

(** [updateBackground] on string descriptions, as one equation. *)
Lemma updateBackground_strings (weatherArr : list Weather.t)
    (descs : list string) (s : WeatherApi.State) :
  map Weather.description weatherArr = map JStr descs ->
  run (WeatherApi.updateBackground weatherArr) s
  = setBgImage (pick WeatherApi.backgroundImages descs
                  (WeatherApi.member WeatherApi.backgroundImages "default"))
               (mkWorld s []).
Proof.
  intros Hdescs.
  unfold run, WeatherApi.updateBackground. rewrite Hdescs, scan_strings.
  reflexivity.
Qed.

(** C4. For every list of condition descriptions, [updateBackground] makes
    exactly one call of [setBgImage]; its URL is that of the first entry, in
    the order of the table, whose keyword is a substring of some
    description, and the [default] entry's URL when no keyword is a
    substring of any description.  The text "Tornado" yields the default
    entry's URL and the text "Clear" the URL of the entry "Clear". *)
Theorem updateBackground_first_match :
  forall (weatherArr : list Weather.t) (descs : list string)
         (s : WeatherApi.State),
    map Weather.description weatherArr = map JStr descs ->
    exists url,
      run (WeatherApi.updateBackground weatherArr) s
      = (Normal tt,
         mkWorld (mkState (data s) (loading s) (city s) url (error s))
                 [SetBgImage url])
      /\ (forall pre key u post,
            WeatherApi.backgroundImages = pre ++ (key, u) :: post ->
            (forall k' u', In (k', u') pre -> matches descs k' = false) ->
            matches descs key = true ->
            url = u)
      /\ ((forall key u, In (key, u) WeatherApi.backgroundImages ->
                         matches descs key = false) ->
          url = WeatherApi.member WeatherApi.backgroundImages "default")
      /\ (descs = ["Tornado"] ->
          url = WeatherApi.member WeatherApi.backgroundImages "default")
      /\ (descs = ["Clear"] ->
          url = WeatherApi.member WeatherApi.backgroundImages "Clear").
Proof.
  intros weatherArr descs s Hdescs.
  exists (pick WeatherApi.backgroundImages descs
            (WeatherApi.member WeatherApi.backgroundImages "default")).
  split; [|split; [|split; [|split]]].
  - now rewrite (updateBackground_strings weatherArr descs s Hdescs).
  - intros pre key u post Htable Hpre Hkey. rewrite Htable.
    now apply pick_first_match.
  - intros Hnone. now apply pick_no_match.
  - intros ->. reflexivity.
  - intros ->. reflexivity.
Qed.

Lemma updateBackground_first_match_witness :
  exists url,
    run (WeatherApi.updateBackground [weather_of "Patchy Rain nearby"])
        WeatherApi.initial
    = (Normal tt,
       mkWorld (mkState None false "skardu" url None) [SetBgImage url])
    /\ url = "https://images.unsplash.com/photo-1438449805895-5918d2267f19".
Proof.
  destruct (updateBackground_first_match
              [weather_of "Patchy Rain nearby"] ["Patchy Rain nearby"]
              WeatherApi.initial eq_refl)
    as [url [Hrun [Hfirst _]]].
  exists url. split; [exact Hrun|].
  apply (Hfirst
           [("Clear", "https://images.unsplash.com/photo-1601134467661-3a775e007848");
            ("Clouds", "https://images.unsplash.com/photo-1483977399921-6cf94f6fdc3a")]
           "Rain" _
           (skipn 3 WeatherApi.backgroundImages)).
  - reflexivity.
  - intros k' u' [Heq|[Heq|[]]]; inversion Heq; reflexivity.
  - reflexivity.
Defined.









(** C1, as stated, fails.  In the table "Snow" comes before both
    "Moderate snow showers" and "Heavy snow showers", and for the text
    "Heavy snow showers" the URL selected is not that of "Snow", the first
    listed of the keys "Snow" and "Heavy snow showers". *)
Lemma specific_before_generic_counterexample :
  listed_before "Heavy snow showers" "Snow" WeatherApi.backgroundImages
  = false
  /\ listed_before "Moderate snow showers" "Snow" WeatherApi.backgroundImages
     = false
  /\ first_listed ["Snow"; "Heavy snow showers"] WeatherApi.backgroundImages
     = Some ("Snow",
             "https://images.unsplash.com/photo-1491002052546-bf38f186af56")
  /\ bgImage (final_state
                (WeatherApi.updateBackground [weather_of "Heavy snow showers"])
                WeatherApi.initial)
     <> "https://images.unsplash.com/photo-1491002052546-bf38f186af56".
Proof.
  repeat split; try reflexivity.
  vm_compute. discriminate.
Qed.

(** C1, amended.  The generic key "Snow" is listed before the keys
    "Moderate snow showers" and "Heavy snow showers"; it is a substring of
    neither, the test being case-sensitive, so it shadows neither.  For the
    text "Heavy snow showers" no entry listed before "Heavy snow showers"
    matches and the URL selected is that entry's.  The selection is a
    function of the descriptions and the table: equal descriptions give
    the same outcome and the same setter calls from any two states. *)
Theorem updateBackground_snow_keys :
  forall (arr1 arr2 : list Weather.t) (s1 s2 : WeatherApi.State),
    map Weather.description arr1 = map Weather.description arr2 ->
    (listed_before "Snow" "Moderate snow showers" WeatherApi.backgroundImages
     = true
     /\ listed_before "Snow" "Heavy snow showers" WeatherApi.backgroundImages
        = true
     /\ includes "Moderate snow showers" "Snow" = false
     /\ includes "Heavy snow showers" "Snow" = false)
    /\ (forall id main icon s,
          let w := Weather.mk id main (JStr "Heavy snow showers") icon in
          (forall key url,
              In (key, url) (firstn 5 WeatherApi.backgroundImages) ->
              matches ["Heavy snow showers"] key = false)
          /\ nth_error WeatherApi.backgroundImages 5
             = Some ("Heavy snow showers",
                     "https://example.com/heavy-snow-image.jpg")
          /\ calls (WeatherApi.updateBackground [w]) s
             = [SetBgImage "https://example.com/heavy-snow-image.jpg"]
          /\ bgImage (final_state (WeatherApi.updateBackground [w]) s)
             = "https://example.com/heavy-snow-image.jpg")
    /\ outcome (WeatherApi.updateBackground arr1) s1
       = outcome (WeatherApi.updateBackground arr2) s2
    /\ calls (WeatherApi.updateBackground arr1) s1
       = calls (WeatherApi.updateBackground arr2) s2.
Proof.
  intros arr1 arr2 s1 s2 Hsame.
  split; [repeat split; reflexivity|split; [|split]].
  - intros id main icon s w. split; [|split; [reflexivity|]].
    + intros key url Hin. simpl in Hin.
      repeat (destruct Hin as [Heq|Hin]; [inversion Heq; reflexivity|]).
      destruct Hin.
    + assert (Hrun := updateBackground_strings [w] ["Heavy snow showers"] s
                        eq_refl).
      unfold calls, final_state. rewrite Hrun. split; reflexivity.
  - unfold outcome, run, WeatherApi.updateBackground.
    rewrite Hsame, !scan_selection.
    now destruct (selection _ _ _).
  - unfold calls, run, WeatherApi.updateBackground.
    rewrite Hsame, !scan_selection.
    now destruct (selection _ _ _).
Qed.

Lemma updateBackground_snow_keys_witness :
  includes "Heavy snow showers" "Snow" = false
  /\ calls (WeatherApi.updateBackground [weather_of "Heavy snow showers"])
           WeatherApi.initial
     = calls (WeatherApi.updateBackground
                [Weather.mk JNull JNull (JStr "Heavy snow showers") ""])
             (mkState None true "Oslo" "about:blank" None).
Proof.
  destruct (updateBackground_snow_keys
              [weather_of "Heavy snow showers"]
              [Weather.mk JNull JNull (JStr "Heavy snow showers") ""]
              WeatherApi.initial
              (mkState None true "Oslo" "about:blank" None) eq_refl)
    as [[_ [_ [_ Hsub]]] [_ [_ Hcalls]]].
  split; [exact Hsub|exact Hcalls].
Defined.

(* ================================================================== *)
(** ** [fetchData] in [src/App.tsx] *)
(* ================================================================== *)

Section Fetch.
Import WeatherApi.
Context {conv : Conversions} {env : Env}.

Lemma fetchData_begin_run (s : State) :
  run fetchData_begin s
  = (Normal (API_URL (city s)),
     mkWorld (mkState (data s) true (city s) (bgImage s) None)
             [SetLoading true; SetError None]).
Proof. reflexivity. Qed.

Lemma fetchData_run (s : State) :
  run fetchData s = fetchData_settle (http_get (API_URL (city s))) (begun s).
Proof. reflexivity. Qed.

Lemma fetch_fails_run (s : State) :
  fetch_fails s
  = negb (completes (fst (try_block (http_get (API_URL (city s))) (begun s)))).
Proof.
  unfold fetch_fails.
  change (run (bind fetchData_begin (fun url => try_block (http_get url))) s)
    with (try_block (http_get (API_URL (city s))) (begun s)).
  now destruct (try_block _ _) as [[?|?] ?].
Qed.

(** The [try] block writes the data and then the background, or throws
    before any write, or throws after the write of the data. *)
Lemma try_block_cases (settled : HttpResult)
    (w : World (option WeatherData.t) string) :
  (exists response d url,
      axios_settle settled = Normal response
      /\ formattedData (response_data response) = Normal d
      /\ selection backgroundImages
           (map Weather.description (WeatherData.weather d))
           (member backgroundImages "default") = Normal url
      /\ try_block settled w
         = (Normal tt,
            mkWorld (mkState (Some d) (loading (state w)) (city (state w))
                             url (error (state w)))
                    (log w ++ [SetData (Some d); SetBgImage url])))
  \/ (exists e, try_block settled w = (Throw e, w))
  \/ (exists e d,
         try_block settled w
         = (Throw e,
            mkWorld (mkState (Some d) (loading (state w)) (city (state w))
                             (bgImage (state w)) (error (state w)))
                    (log w ++ [SetData (Some d)]))).
Proof.
  unfold try_block, bind, eval.
  destruct (axios_settle settled) as [response|e] eqn:Haxios;
    [|right; left; now exists e].
  destruct (formattedData (response_data response)) as [d|e] eqn:Hformat;
    [|right; left; now exists e].
  unfold setData, write. cbn beta iota.
  unfold updateBackground. rewrite scan_selection.
  destruct (selection _ _ _) as [url|e] eqn:Hselect.
  - left. exists response, d, url. repeat split; try assumption.
    unfold setBgImage, write. cbn [state log data loading city
      bgImage error]. now rewrite <- app_assoc.
  - right; right. now exists e, d.
Qed.

(** Every run of [fetchData] has one of two shapes.  On success the data
    and the background are written between the two writes of [loading];
    on failure the message is written and the data cleared, possibly after
    a write of the data that the [try] block made before it threw. *)
Lemma fetchData_cases (s : State) :
  let settled := http_get (API_URL (city s)) in
  (fetch_fails s = false
   /\ exists response d url,
       axios_settle settled = Normal response
       /\ formattedData (response_data response) = Normal d
       /\ selection backgroundImages
            (map Weather.description (WeatherData.weather d))
            (member backgroundImages "default") = Normal url
       /\ run fetchData s
          = (Normal tt,
             mkWorld (mkState (Some d) false (city s) url None)
                     [SetLoading true; SetError None;
                      SetData (Some d); SetBgImage url; SetLoading false]))
  \/ (fetch_fails s = true
      /\ exists before,
          (before = [] \/ exists d, before = [SetData (Some d)])
          /\ run fetchData s
             = (Normal tt,
                mkWorld (mkState None false (city s) (bgImage s)
                                 (Some error_message))
                        ([SetLoading true; SetError None] ++ before
                         ++ [SetError (Some error_message); SetData None;
                             SetLoading false]))).
Proof.
  intros settled.
  rewrite fetch_fails_run, fetchData_run. fold settled.
  unfold fetchData_settle, try_catch_finally.
  destruct (try_block_cases settled (begun s))
    as [(response & d & url & Haxios & Hformat & Hselect & Htry)
       |[(e & Htry)|(e & d & Htry)]]; rewrite Htry.
  - left. split; [reflexivity|]. exists response, d, url.
    repeat split; assumption.
  - right. split; [reflexivity|]. exists []. split; [now left|reflexivity].
  - right. split; [reflexivity|]. exists [SetData (Some d)].
    split; [right; now exists d|reflexivity].
Qed.

End Fetch.

(* ================================================================== *)
(** ** [fetchData] in the RapidAPI version *)
(* ================================================================== *)

Section RapidFetch.
Import RapidApi.
Context {conv : Conversions} {env : Env}.

Lemma rapid_fetchData_run (s : State) :
  run fetchData s = fetchData_settle (http_request (options_for (city s))) (begun s).
Proof. reflexivity. Qed.

Lemma rapid_fetch_fails_run (s : State) :
  fetch_fails s
  = negb (completes (fst (try_block (http_request (options_for (city s))) (begun s)))).
Proof.
  unfold fetch_fails.
  change (run (bind fetchData_begin
                 (fun options => try_block (http_request options))) s)
    with (try_block (http_request (options_for (city s))) (begun s)).
  now destruct (try_block _ _) as [[?|?] ?].
Qed.

Lemma rapid_try_block_cases (settled : HttpResult) (w : World JsVal Image) :
  (exists response main key,
      axios_settle settled = Normal response
      /\ first_main (response_data response) = Normal main
      /\ ToString main = Normal key
      /\ try_block settled w
         = (Normal tt,
            mkWorld (mkState (response_data response) (loading (state w))
                             (city (state w)) (or_default (lookup key))
                             (error (state w)))
                    (log w ++ [SetData (response_data response);
                               SetBgImage (or_default (lookup key))])))
  \/ (exists e, try_block settled w = (Throw e, w))
  \/ (exists e response,
         axios_settle settled = Normal response
         /\ try_block settled w
            = (Throw e,
               mkWorld (mkState (response_data response) (loading (state w))
                                (city (state w)) (bgImage (state w))
                                (error (state w)))
                       (log w ++ [SetData (response_data response)]))).
Proof.
  unfold try_block, bind, eval.
  destruct (axios_settle settled) as [response|e] eqn:Haxios;
    [|right; left; now exists e].
  unfold setData, write. cbn beta iota.
  destruct (first_main (response_data response)) as [main|e] eqn:Hmain;
    [|right; right; now exists e, response].
  unfold updateBackground, bind, eval.
  destruct (ToString main) as [key|e] eqn:Hkey;
    [|right; right; now exists e, response].
  left. exists response, main, key. repeat split; try assumption.
  unfold setBgImage, write. cbn [state log data loading city bgImage error].
  now rewrite <- app_assoc.
Qed.

Lemma rapid_fetchData_cases (s : State) :
  let settled := http_request (options_for (city s)) in
  (fetch_fails s = false
   /\ exists response main key,
       axios_settle settled = Normal response
       /\ first_main (response_data response) = Normal main
       /\ ToString main = Normal key
       /\ run fetchData s
          = (Normal tt,
             mkWorld (mkState (response_data response) false (city s)
                              (or_default (lookup key)) None)
                     [SetLoading true; SetError None;
                      SetData (response_data response);
                      SetBgImage (or_default (lookup key));
                      SetLoading false]))
  \/ (fetch_fails s = true
      /\ exists before,
          (before = [] \/ exists body, before = [SetData body])
          /\ run fetchData s
             = (Normal tt,
                mkWorld (mkState JNull false (city s) (bgImage s)
                                 (Some error_message))
                        ([SetLoading true; SetError None] ++ before
                         ++ [SetError (Some error_message); SetData JNull;
                             SetLoading false]))).
Proof.
  intros settled.
  rewrite rapid_fetch_fails_run, rapid_fetchData_run. fold settled.
  unfold fetchData_settle, try_catch_finally.
  destruct (rapid_try_block_cases settled (begun s))
    as [(response & main & key & Haxios & Hmain & Hkey & Htry)
       |[(e & Htry)|(e & response & Haxios & Htry)]]; rewrite Htry.
  - left. split; [reflexivity|]. exists response, main, key.
    repeat split; assumption.
  - right. split; [reflexivity|]. exists []. split; [now left|reflexivity].
  - right. split; [reflexivity|]. exists [SetData (response_data response)].
    split; [right; now eexists|reflexivity].
Qed.

End RapidFetch.

(* ================================================================== *)
(** ** The claims about fetching *)
(* ================================================================== *)

(** C2. Whenever the [try] block of [fetchData] throws, in either version
    of the component, the error cell ends as the fixed message and the
    data cell as [null], whatever was shown before.  A network failure, a
    status outside 200..299 and a body that the success path cannot
    process each make the [try] block throw. *)
Theorem failed_fetch_reports_fixed_message
    {conv : Conversions} {env : WeatherApi.Env} {renv : RapidApi.Env} :
  (forall s : WeatherApi.State,
      WeatherApi.fetch_fails s = true ->
      error (final_state WeatherApi.fetchData s)
      = Some "City not found. Please try again."
      /\ data (final_state WeatherApi.fetchData s) = None)
  /\ (forall s : RapidApi.State,
        RapidApi.fetch_fails s = true ->
        error (final_state RapidApi.fetchData s)
        = Some "City not found. Please try again."
        /\ data (final_state RapidApi.fetchData s) = JNull)
  /\ (forall s : WeatherApi.State,
        let settled := WeatherApi.http_get (WeatherApi.API_URL (city s)) in
        (settled = NetworkFailure
         \/ (exists status body,
                settled = HttpResponse status body
                /\ (status < 200 \/ 300 <= status)%Z)
         \/ (exists status body,
                settled = HttpResponse status body
                /\ completes (WeatherApi.formattedData body) = false)) ->
        WeatherApi.fetch_fails s = true)
  /\ (forall s : RapidApi.State,
        let settled := RapidApi.http_request (RapidApi.options_for (city s)) in
        (settled = NetworkFailure
         \/ (exists status body,
                settled = HttpResponse status body
                /\ (status < 200 \/ 300 <= status)%Z)
         \/ (exists status body,
                settled = HttpResponse status body
                /\ completes (RapidApi.first_main body) = false)) ->
        RapidApi.fetch_fails s = true).
Proof.
  split; [|split; [|split]].
  - intros s Hfails.
    destruct (fetchData_cases s) as [[Hok _]|[_ (before & _ & Hrun)]];
      [congruence|].
    unfold final_state. rewrite Hrun. split; reflexivity.
  - intros s Hfails.
    destruct (rapid_fetchData_cases s) as [[Hok _]|[_ (before & _ & Hrun)]];
      [congruence|].
    unfold final_state. rewrite Hrun. split; reflexivity.
  - intros s settled Hcause.
    destruct (fetchData_cases s)
      as [[_ (response & d & url & Haxios & Hformat & _)]|[Hfails _]];
      [exfalso|exact Hfails].
    fold settled in Haxios.
    destruct Hcause as [Hsettled|[(status & body & Hsettled & Hstatus)
                             |(status & body & Hsettled & Hbody)]];
      rewrite Hsettled in Haxios; simpl in Haxios.
    + discriminate.
    + destruct ((200 <=? status)%Z) eqn:Hlow;
        destruct ((status <? 300)%Z) eqn:Hhigh; simpl in Haxios;
        try discriminate.
      apply Z.leb_le in Hlow. apply Z.ltb_lt in Hhigh. lia.
    + destruct ((200 <=? status) && (status <? 300))%Z; [|discriminate].
      injection Haxios as <-. simpl in Hformat.
      rewrite Hformat in Hbody. discriminate.
  - intros s settled Hcause.
    destruct (rapid_fetchData_cases s)
      as [[_ (response & main & key & Haxios & Hmain & _)]|[Hfails _]];
      [exfalso|exact Hfails].
    fold settled in Haxios.
    destruct Hcause as [Hsettled|[(status & body & Hsettled & Hstatus)
                             |(status & body & Hsettled & Hbody)]];
      rewrite Hsettled in Haxios; simpl in Haxios.
    + discriminate.
    + destruct ((200 <=? status)%Z) eqn:Hlow;
        destruct ((status <? 300)%Z) eqn:Hhigh; simpl in Haxios;
        try discriminate.
      apply Z.leb_le in Hlow. apply Z.ltb_lt in Hhigh. lia.
    + destruct ((200 <=? status) && (status <? 300))%Z; [|discriminate].
      injection Haxios as <-. simpl in Hmain.
      rewrite Hmain in Hbody. discriminate.
Qed.

Lemma failed_fetch_reports_fixed_message_witness :
  @WeatherApi.fetch_fails sample_conversions
     (answering (HttpResponse 404 (JStr "Not Found"))) showing_oslo = true
  /\ error (final_state
              (@WeatherApi.fetchData sample_conversions
                 (answering (HttpResponse 404 (JStr "Not Found"))))
              showing_oslo)
     = Some "City not found. Please try again."
  /\ data (final_state
             (@WeatherApi.fetchData sample_conversions
                (answering (HttpResponse 404 (JStr "Not Found"))))
             showing_oslo)
     = None.
Proof.
  split; [reflexivity|].
  apply (proj1 (@failed_fetch_reports_fixed_message sample_conversions
                  (answering (HttpResponse 404 (JStr "Not Found")))
                  (rapid_answering NetworkFailure))).
  reflexivity.
Defined.

(** C3, as stated, fails.  When the [try] block throws after [setData]
    ran, the success write and the error write both happen between the two
    writes of [loading]: in [src/App.tsx] on a body whose condition text
    is [null], in the RapidAPI version on a body without [weather] (an
    answer of status 200 that reports an unknown city). *)
Lemma three_transitions_counterexample :
  calls (@WeatherApi.fetchData sample_conversions
           (answering (HttpResponse 200 (current_json JNull 21.6))))
        WeatherApi.initial
  = [ SetLoading true; SetError None;
      SetData (Some (WeatherData.mk (JStr "Skardu")
                       [Weather.mk (JNum 1000) JNull JNull
                          "https://cdn.weatherapi.com/113.png"]
                       (Main.mk (JNum 21.6) (JNum 21.6) (JNum 21.6)
                          (JNum 21.6) (JNum 1012) (JNum 40))));
      SetError (Some "City not found. Please try again.");
      SetData None;
      SetLoading false ]
  /\ calls (@RapidApi.fetchData sample_conversions
              (rapid_answering (HttpResponse 200 not_found_json)))
           RapidApi.initial
     = [ SetLoading true; SetError None;
         SetData not_found_json;
         SetError (Some "City not found. Please try again.");
         SetData JNull;
         SetLoading false ].
Proof. split; reflexivity. Qed.

(** C3, amended.  Every invocation of [fetchData], in either version,
    returns normally; its first setter call sets [loading] (the error is
    cleared next), its last clears [loading], and [loading] is written
    nowhere in between.  In between, a fetch that succeeds writes the data
    and then the background, and a fetch that fails writes the fixed
    message and then clears the data; when the [try] block threw after
    its write of the data, that write precedes the two. *)
Theorem fetchData_call_sequence
    {conv : Conversions} {env : WeatherApi.Env} {renv : RapidApi.Env} :
  (forall s : WeatherApi.State,
      outcome WeatherApi.fetchData s = Normal tt
      /\ loading (final_state WeatherApi.fetchData s) = false
      /\ exists middle,
          calls WeatherApi.fetchData s
          = [SetLoading true; SetError None] ++ middle ++ [SetLoading false]
          /\ (forall b, ~ In (SetLoading b) middle)
          /\ ((WeatherApi.fetch_fails s = false
               /\ exists d url, middle = [SetData (Some d); SetBgImage url])
              \/ (WeatherApi.fetch_fails s = true
                  /\ (middle = [SetError (Some error_message); SetData None]
                      \/ exists d,
                          middle = [SetData (Some d);
                                    SetError (Some error_message);
                                    SetData None]))))
  /\ (forall s : RapidApi.State,
        outcome RapidApi.fetchData s = Normal tt
        /\ loading (final_state RapidApi.fetchData s) = false
        /\ exists middle,
            calls RapidApi.fetchData s
            = [SetLoading true; SetError None] ++ middle ++ [SetLoading false]
            /\ (forall b, ~ In (SetLoading b) middle)
            /\ ((RapidApi.fetch_fails s = false
                 /\ exists body image,
                     middle = [SetData body; SetBgImage image])
                \/ (RapidApi.fetch_fails s = true
                    /\ (middle = [SetError (Some error_message);
                                  SetData JNull]
                        \/ exists body,
                            middle = [SetData body;
                                      SetError (Some error_message);
                                      SetData JNull])))).
Proof.
  split; intros s.
  - destruct (fetchData_cases s)
      as [[Hok (response & d & url & _ & _ & _ & Hrun)]
         |[Hfails (before & Hbefore & Hrun)]];
      unfold outcome, final_state, calls; rewrite Hrun; simpl;
      (split; [reflexivity|split; [reflexivity|]]).
    + exists [SetData (Some d); SetBgImage url].
      split; [reflexivity|split].
      * intros b [Hin|[Hin|[]]]; discriminate.
      * left. split; [exact Hok|]. now exists d, url.
    + destruct Hbefore as [->|[d ->]].
      * exists [SetError (Some error_message); SetData None].
        split; [reflexivity|split].
        -- intros b [Hin|[Hin|[]]]; discriminate.
        -- right. split; [exact Hfails|now left].
      * exists [SetData (Some d); SetError (Some error_message); SetData None].
        split; [reflexivity|split].
        -- intros b [Hin|[Hin|[Hin|[]]]]; discriminate.
        -- right. split; [exact Hfails|right; now exists d].
  - destruct (rapid_fetchData_cases s)
      as [[Hok (response & main & key & _ & _ & _ & Hrun)]
         |[Hfails (before & Hbefore & Hrun)]];
      unfold outcome, final_state, calls; rewrite Hrun; simpl;
      (split; [reflexivity|split; [reflexivity|]]).
    + exists [SetData (response_data response);
              SetBgImage (RapidApi.or_default (RapidApi.lookup key))].
      split; [reflexivity|split].
      * intros b [Hin|[Hin|[]]]; discriminate.
      * left. split; [exact Hok|]. eauto.
    + destruct Hbefore as [->|[body ->]].
      * exists [SetError (Some error_message); SetData JNull].
        split; [reflexivity|split].
        -- intros b [Hin|[Hin|[]]]; discriminate.
        -- right. split; [exact Hfails|now left].
      * exists [SetData body; SetError (Some error_message); SetData JNull].
        split; [reflexivity|split].
        -- intros b [Hin|[Hin|[Hin|[]]]]; discriminate.
        -- right. split; [exact Hfails|right; now exists body].
Qed.

Lemma fetchData_call_sequence_witness :
  @WeatherApi.fetch_fails sample_conversions
    (answering (HttpResponse 200 (current_json (JStr "Sunny") 21.6)))
    WeatherApi.initial = false
  /\ outcome (@WeatherApi.fetchData sample_conversions
                (answering (HttpResponse 200 (current_json (JStr "Sunny") 21.6))))
             WeatherApi.initial = Normal tt
  /\ loading (final_state
                (@WeatherApi.fetchData sample_conversions
                   (answering
                      (HttpResponse 200 (current_json (JStr "Sunny") 21.6))))
                WeatherApi.initial) = false.
Proof.
  destruct (proj1 (@fetchData_call_sequence sample_conversions
                     (answering
                        (HttpResponse 200 (current_json (JStr "Sunny") 21.6)))
                     (rapid_answering NetworkFailure)) WeatherApi.initial)
    as (Hreturns & Hloading & _).
  split; [reflexivity|split; [exact Hreturns|exact Hloading]].
Defined.

(* ================================================================== *)
(** ** The snapshot and its rendering *)
(* ================================================================== *)

Lemma axios_settle_resolved (settled : HttpResult) (response : AxiosResponse) :
  axios_settle settled = Normal response ->
  settled = HttpResponse (response_status response) (response_data response)
  /\ (200 <= response_status response < 300)%Z.
Proof.
  destruct settled as [|status body]; simpl; [discriminate|].
  destruct ((200 <=? status)%Z) eqn:Hlow;
    destruct ((status <? 300)%Z) eqn:Hhigh; simpl; try discriminate.
  intros [= <-]. simpl. apply Z.leb_le in Hlow. apply Z.ltb_lt in Hhigh.
  split; [reflexivity|lia].
Qed.

(** The reshaped snapshot holds the values that the body holds. *)
Lemma formattedData_fields {conv : Conversions} (body : JsVal)
    (d : WeatherData.t) :
  WeatherApi.formattedData body = Normal d ->
  path body ["current"; "temp_c"] = Normal (Main.temp (WeatherData.main d))
  /\ path body ["current"; "feelslike_c"]
     = Normal (Main.feels_like (WeatherData.main d))
  /\ Main.temp_min (WeatherData.main d) = Main.temp (WeatherData.main d)
  /\ Main.temp_max (WeatherData.main d) = Main.temp (WeatherData.main d)
  /\ path body ["current"; "pressure_mb"]
     = Normal (Main.pressure (WeatherData.main d))
  /\ path body ["current"; "humidity"]
     = Normal (Main.humidity (WeatherData.main d))
  /\ path body ["location"; "name"] = Normal (WeatherData.name d)
  /\ exists text,
       path body ["current"; "condition"; "text"] = Normal text
       /\ map Weather.description (WeatherData.weather d) = [text].
Proof.
  unfold WeatherApi.formattedData, cbind. intros Hformat.
  repeat match type of Hformat with
         | context [match ?c with Normal _ => _ | Throw _ => _ end] =>
             destruct c eqn:?; try discriminate
         end.
  injection Hformat as <-. simpl. repeat split. eexists. split; reflexivity.
Qed.

Lemma degrees_of_number {conv : Conversions} (q : Q) :
  WeatherApi.degrees (JNum q)
  = Normal (NumberToString (Finite (inject_Z (Qfloor (q + (1 # 2)))))
            ++ "°C")%string.
Proof. reflexivity. Qed.

Lemma NumberToString_integer {conv : Conversions} (z : Z) :
  (Z.abs z <= 2 ^ 53)%Z ->
  NumberToString (Finite (inject_Z z)) = decimal z.
Proof.
  intros Hsmall. unfold NumberToString, is_integer.
  rewrite Qfloor_Z.
  assert (Hint : Qeq_bool (inject_Z z) (inject_Z z) = true)
    by (apply Qeq_bool_iff; reflexivity).
  assert (Hle : (Z.abs z <=? 2 ^ 53)%Z = true) by now apply Z.leb_le.
  now rewrite Hint, Hle.
Qed.

(** C5. After every successful fetch of [src/App.tsx] the snapshot holds
    the temperatures of the response body as they came ([temp] and
    [feels_like] are the values at [current.temp_c] and
    [current.feelslike_c]); rounding is applied when the text is rendered:
    a stored number [q] is shown as the nearest integer, a tie going up,
    followed by the degree sign.  With [temp_c] equal to 21.6 the snapshot
    holds that number and the text is "22°C". *)
Theorem snapshot_keeps_temperatures
    {conv : Conversions} {env : WeatherApi.Env} :
  forall s : WeatherApi.State,
    WeatherApi.fetch_fails s = false ->
    exists status body d,
      WeatherApi.http_get (WeatherApi.API_URL (city s))
      = HttpResponse status body
      /\ data (final_state WeatherApi.fetchData s) = Some d
      /\ path body ["current"; "temp_c"]
         = Normal (Main.temp (WeatherData.main d))
      /\ path body ["current"; "feelslike_c"]
         = Normal (Main.feels_like (WeatherData.main d))
      /\ (forall q,
            Main.temp (WeatherData.main d) = JNum q ->
            WeatherApi.temperature_text d
            = Normal (NumberToString
                        (Finite (inject_Z (Qfloor (q + (1 # 2)))))
                      ++ "°C")%string)
      /\ (forall q,
            path body ["current"; "temp_c"] = Normal (JNum q) ->
            (q == 21.6)%Q ->
            Main.temp (WeatherData.main d) = JNum q
            /\ WeatherApi.temperature_text d = Normal "22°C").
Proof.
  intros s Hok.
  destruct (fetchData_cases s)
    as [[_ (response & d & url & Haxios & Hformat & _ & Hrun)]|[Hfails _]];
    [|congruence].
  destruct (axios_settle_resolved _ _ Haxios) as [Hsettled _].
  destruct (formattedData_fields _ _ Hformat) as (Htemp & Hfeels & _).
  exists (response_status response), (response_data response), d.
  split; [exact Hsettled|].
  split; [unfold final_state; now rewrite Hrun|].
  split; [exact Htemp|]. split; [exact Hfeels|]. split.
  - intros q Hq. unfold WeatherApi.temperature_text. rewrite Hq.
    apply degrees_of_number.
  - intros q Hbody Hq. rewrite Htemp in Hbody. injection Hbody as Hstored.
    split; [exact Hstored|].
    unfold WeatherApi.temperature_text. rewrite Hstored, degrees_of_number.
    assert (Hround : Qfloor (q + (1 # 2)) = 22%Z).
    { assert (Hsum : (q + (1 # 2) == 22.1)%Q) by (rewrite Hq; reflexivity).
      rewrite (Qfloor_comp _ _ Hsum). reflexivity. }
    rewrite Hround, NumberToString_integer by (vm_compute; discriminate).
    reflexivity.
Qed.

Lemma snapshot_keeps_temperatures_witness :
  exists d,
    data (final_state
            (@WeatherApi.fetchData sample_conversions
               (answering (HttpResponse 200 (current_json (JStr "Sunny") 21.6))))
            WeatherApi.initial) = Some d
    /\ Main.temp (WeatherData.main d) = JNum 21.6
    /\ @WeatherApi.temperature_text sample_conversions d = Normal "22°C".
Proof.
  destruct (@snapshot_keeps_temperatures sample_conversions
              (answering (HttpResponse 200 (current_json (JStr "Sunny") 21.6)))
              WeatherApi.initial eq_refl)
    as (status & body & d & Hsettled & Hdata & _ & _ & _ & Hround).
  exists d. split; [exact Hdata|].
  injection Hsettled as _ <-.
  apply (Hround 21.6%Q); reflexivity.
Defined.

(** C7. In [src/App.tsx], whose provider sends no minimum and maximum,
    every successful fetch stores a snapshot whose [temp_min] and
    [temp_max] both equal its [temp], the value of [current.temp_c] in the
    response body. *)
Theorem min_and_max_are_current_temperature
    {conv : Conversions} {env : WeatherApi.Env} :
  forall s : WeatherApi.State,
    WeatherApi.fetch_fails s = false ->
    exists status body d temp_c,
      WeatherApi.http_get (WeatherApi.API_URL (city s))
      = HttpResponse status body
      /\ data (final_state WeatherApi.fetchData s) = Some d
      /\ path body ["current"; "temp_c"] = Normal temp_c
      /\ Main.temp (WeatherData.main d) = temp_c
      /\ Main.temp_min (WeatherData.main d) = temp_c
      /\ Main.temp_max (WeatherData.main d) = temp_c.
Proof.
  intros s Hok.
  destruct (fetchData_cases s)
    as [[_ (response & d & url & Haxios & Hformat & _ & Hrun)]|[Hfails _]];
    [|congruence].
  destruct (axios_settle_resolved _ _ Haxios) as [Hsettled _].
  destruct (formattedData_fields _ _ Hformat) as (Htemp & _ & Hmin & Hmax & _).
  exists (response_status response), (response_data response), d,
         (Main.temp (WeatherData.main d)).
  unfold final_state. rewrite Hrun. now repeat split.
Qed.

Lemma min_and_max_are_current_temperature_witness :
  exists d,
    data (final_state
            (@WeatherApi.fetchData sample_conversions
               (answering (HttpResponse 200 (current_json (JStr "Mist") 7.4))))
            WeatherApi.initial) = Some d
    /\ Main.temp (WeatherData.main d) = JNum 7.4
    /\ Main.temp_min (WeatherData.main d) = JNum 7.4
    /\ Main.temp_max (WeatherData.main d) = JNum 7.4.
Proof.
  destruct (@min_and_max_are_current_temperature sample_conversions
              (answering (HttpResponse 200 (current_json (JStr "Mist") 7.4)))
              WeatherApi.initial eq_refl)
    as (status & body & d & temp_c & Hsettled & Hdata & Hbody & Ht & Hmin
        & Hmax).
  exists d. injection Hsettled as _ <-. injection Hbody as <-.
  now repeat split.
Defined.

(** A body from which the RapidAPI version reads a first [main] is an
    object. *)
Lemma first_main_object {conv : Conversions} (body main : JsVal) :
  RapidApi.first_main body = Normal main -> truthy body = true.
Proof.
  unfold RapidApi.first_main, cbind.
  destruct body; simpl; try discriminate; reflexivity.
Qed.

(** C6. After one invocation of [fetchData], in either version, not both
    of the data block and the error block are shown: a successful fetch
    leaves the data set and the error [null], a failed fetch leaves the
    fixed message set and the data [null]. *)
Theorem data_and_error_exclusive
    {conv : Conversions} {env : WeatherApi.Env} {renv : RapidApi.Env} :
  (forall s : WeatherApi.State,
      let s' := final_state WeatherApi.fetchData s in
      (WeatherApi.fetch_fails s = false ->
       shown (data s') = true /\ error s' = None)
      /\ (WeatherApi.fetch_fails s = true ->
          error s' = Some error_message /\ data s' = None)
      /\ shown (data s') && error_shown (error s') = false)
  /\ (forall s : RapidApi.State,
        let s' := final_state RapidApi.fetchData s in
        (RapidApi.fetch_fails s = false ->
         truthy (data s') = true /\ error s' = None)
        /\ (RapidApi.fetch_fails s = true ->
            error s' = Some error_message /\ data s' = JNull)
        /\ truthy (data s') && error_shown (error s') = false).
Proof.
  split; intros s s'; subst s'; unfold final_state.
  - destruct (fetchData_cases s)
      as [[Hok (response & d & url & _ & _ & _ & Hrun)]
         |[Hfails (before & _ & Hrun)]];
      rewrite Hrun; simpl; repeat split; congruence.
  - destruct (rapid_fetchData_cases s)
      as [[Hok (response & main & key & _ & Hmain & _ & Hrun)]
         |[Hfails (before & _ & Hrun)]];
      rewrite Hrun; simpl.
    + rewrite (first_main_object _ _ Hmain). repeat split; congruence.
    + repeat split; congruence.
Qed.

Lemma data_and_error_exclusive_witness :
  @RapidApi.fetch_fails sample_conversions
    (rapid_answering (HttpResponse 200 not_found_json))
    RapidApi.initial = true
  /\ error (final_state
              (@RapidApi.fetchData sample_conversions
                 (rapid_answering (HttpResponse 200 not_found_json)))
              RapidApi.initial)
     = Some error_message
  /\ data (final_state
             (@RapidApi.fetchData sample_conversions
                (rapid_answering (HttpResponse 200 not_found_json)))
             RapidApi.initial)
     = JNull.
Proof.
  destruct (proj2 (@data_and_error_exclusive sample_conversions
                     (answering NetworkFailure)
                     (rapid_answering (HttpResponse 200 not_found_json)))
                  RapidApi.initial)
    as (_ & Hfailed & _).
  split; [reflexivity|exact (Hfailed eq_refl)].
Defined.

(** C9. Up to its [await], [fetchData] sets [loading] and clears the
    error and changes nothing else: the data, the background and the query
    are those of before.  A fetch that fails never calls [setBgImage], so
    the background stays what it was; the query is never written.  This
    holds in both versions. *)
Theorem fetch_start_clears_only_error
    {conv : Conversions} {env : WeatherApi.Env} {renv : RapidApi.Env} :
  (forall s : WeatherApi.State,
      final_state WeatherApi.fetchData_begin s
      = mkState (data s) true (city s) (bgImage s) None
      /\ calls WeatherApi.fetchData_begin s = [SetLoading true; SetError None]
      /\ (WeatherApi.fetch_fails s = true ->
          bgImage (final_state WeatherApi.fetchData s) = bgImage s
          /\ forall u, ~ In (SetBgImage u) (calls WeatherApi.fetchData s))
      /\ city (final_state WeatherApi.fetchData s) = city s)
  /\ (forall s : RapidApi.State,
        final_state RapidApi.fetchData_begin s
        = mkState (data s) true (city s) (bgImage s) None
        /\ calls RapidApi.fetchData_begin s = [SetLoading true; SetError None]
        /\ (RapidApi.fetch_fails s = true ->
            bgImage (final_state RapidApi.fetchData s) = bgImage s
            /\ forall u, ~ In (SetBgImage u) (calls RapidApi.fetchData s))
        /\ city (final_state RapidApi.fetchData s) = city s).
Proof.
  split; intros s; (split; [reflexivity|split; [reflexivity|]]);
    unfold final_state, calls.
  - destruct (fetchData_cases s)
      as [[Hok (response & d & url & _ & _ & _ & Hrun)]
         |[Hfails (before & Hbefore & Hrun)]];
      rewrite Hrun; simpl; (split; [|reflexivity]); [congruence|].
    intros _. split; [reflexivity|].
    intros u [Hin|[Hin|Hin]]; try discriminate.
    destruct Hbefore as [->|[d ->]]; simpl in Hin;
      repeat (destruct Hin as [Hin|Hin]; [discriminate|]); exact Hin.
  - destruct (rapid_fetchData_cases s)
      as [[Hok (response & main & key & _ & _ & _ & Hrun)]
         |[Hfails (before & Hbefore & Hrun)]];
      rewrite Hrun; simpl; (split; [|reflexivity]); [congruence|].
    intros _. split; [reflexivity|].
    intros u [Hin|[Hin|Hin]]; try discriminate.
    destruct Hbefore as [->|[body ->]]; simpl in Hin;
      repeat (destruct Hin as [Hin|Hin]; [discriminate|]); exact Hin.
Qed.

Lemma fetch_start_clears_only_error_witness :
  @WeatherApi.fetch_fails sample_conversions (answering NetworkFailure)
     showing_oslo = true
  /\ bgImage (final_state
                (@WeatherApi.fetchData sample_conversions
                   (answering NetworkFailure)) showing_oslo)
     = "https://images.unsplash.com/photo-1601134467661-3a775e007848"
  /\ final_state (@WeatherApi.fetchData_begin (answering NetworkFailure))
                 showing_oslo
     = mkState (Some sample_snapshot) true "Atlantis"
         "https://images.unsplash.com/photo-1601134467661-3a775e007848" None.
Proof.
  destruct (proj1 (@fetch_start_clears_only_error sample_conversions
                     (answering NetworkFailure)
                     (rapid_answering NetworkFailure)) showing_oslo)
    as (Hbegin & _ & Hfail & _).
  split; [reflexivity|].
  split; [exact (proj1 (Hfail eq_refl))|exact Hbegin].
Defined.

(* ================================================================== *)
(** ** Background lookup in the RapidAPI version *)
(* ================================================================== *)

(** With an empty [weather] array the argument of [updateBackground] is
    [undefined], the key "undefined" is not in the table, and the default
    entry's URL is selected. *)
Lemma empty_weather_selects_default {conv : Conversions}
    (body : JsVal) (w : World JsVal RapidApi.Image) :
  get body "weather" = Normal (JArr []) ->
  RapidApi.first_main body = Normal JUndefined
  /\ RapidApi.updateBackground JUndefined w
     = setBgImage (RapidApi.Url RapidApi.default_url) w.
Proof.
  intros Hweather. unfold RapidApi.first_main. rewrite Hweather.
  split; reflexivity.
Qed.

(** A key that is neither a key of the table nor the name of a member of
    [Object.prototype] selects the default entry's URL. *)
Lemma unknown_key_selects_default {conv : Conversions}
    (main : JsVal) (key : string) (w : World JsVal RapidApi.Image) :
  ToString main = Normal key ->
  own_property key RapidApi.backgroundImages = None ->
  existsb (String.eqb key) RapidApi.Object_prototype = false ->
  RapidApi.updateBackground main w
  = setBgImage (RapidApi.Url RapidApi.default_url) w.
Proof.
  intros Hkey Hown Hproto.
  unfold RapidApi.updateBackground, bind, eval. rewrite Hkey.
  unfold RapidApi.lookup. now rewrite Hown, Hproto.
Qed.

(** The lookup is exact: a [main] that merely contains a key selects the
    default. *)
Lemma lookup_is_exact :
  RapidApi.or_default (RapidApi.lookup "Rain")
  = RapidApi.Url "https://images.unsplash.com/photo-1438449805895-5918d2267f19"
  /\ RapidApi.or_default (RapidApi.lookup "Light Rain")
     = RapidApi.Url RapidApi.default_url.
Proof. split; reflexivity. Qed.

(** C10 fails on the code.  "toString" is not a key of the table, yet
    [backgroundImages["toString"]] is the function inherited from
    [Object.prototype], which is truthy: a response whose first [main] is
    "toString" makes [fetchData] hand that function, not the default
    entry's URL, to [setBgImage]. *)
Theorem inherited_key_bypasses_default {conv : Conversions} :
  forall s : RapidApi.State,
    own_property "toString" RapidApi.backgroundImages = None
    /\ run (@RapidApi.fetchData conv
              (rapid_answering
                 (HttpResponse 200 (city_json (JStr "toString")))))
           s
       = (Normal tt,
          mkWorld (mkState (city_json (JStr "toString")) false (city s)
                           (RapidApi.Inherited "toString") None)
                  [ SetLoading true; SetError None;
                    SetData (city_json (JStr "toString"));
                    SetBgImage (RapidApi.Inherited "toString");
                    SetLoading false ])
    /\ RapidApi.Inherited "toString" <> RapidApi.Url RapidApi.default_url.
Proof.
  intros s. split; [reflexivity|split; [reflexivity|discriminate]].
Qed.

(* ================================================================== *)
(** ** The substring test *)
(* ================================================================== *)

Lemma prefix_append (sub s : string) :
  prefix sub s = true <-> exists post, s = (sub ++ post)%string.
Proof.
  revert s. induction sub as [|c sub IH]; intros s.
  - destruct s; simpl; split; eauto.
  - destruct s as [|c' s]; simpl.
    + split; [discriminate|]. intros [post Hpost]. discriminate.
    + destruct (ascii_dec c c') as [<-|Hneq].
      * rewrite IH. split; intros [post Hpost]; exists post.
        -- now rewrite Hpost.
        -- now injection Hpost.
      * split; [discriminate|]. intros [post Hpost].
        injection Hpost as Hc _. congruence.
Qed.

Lemma includes_unfold (s sub : string) :
  includes s sub
  = prefix sub s
    || match s with
       | EmptyString => false
       | String _ rest => includes rest sub
       end.
Proof. destruct s; reflexivity. Qed.

(** X1. The test [desc.includes(condition)] holds exactly when the
    keyword occurs in the description as a contiguous run: the description
    is some text, then the keyword, then some text. *)
Theorem includes_iff_occurs :
  forall s sub : string,
    includes s sub = true
    <-> exists before after, s = (before ++ sub ++ after)%string.
Proof.
  intros s sub. split.
  - induction s as [|c s IH]; rewrite includes_unfold;
      intros Hin; apply orb_true_iff in Hin as [Hprefix|Hrest].
    + apply prefix_append in Hprefix as [post ->]. now exists "", post.
    + discriminate.
    + apply prefix_append in Hprefix as [post ->]. now exists "", post.
    + destruct (IH Hrest) as (before & after & ->).
      now exists (String c before), after.
  - intros (before & after & ->).
    induction before as [|c before IH]; rewrite includes_unfold.
    + apply orb_true_iff. left. apply prefix_append. now exists after.
    + simpl. rewrite IH. apply orb_true_r.
Qed.

Lemma includes_iff_occurs_witness :
  includes "Heavy snow showers" "snow" = true.
Proof.
  apply (proj2 (includes_iff_occurs "Heavy snow showers" "snow")).
  now exists "Heavy ", " showers".
Defined.

(* ================================================================== *)
(** ** More on [updateBackground] of [src/App.tsx] *)
(* ================================================================== *)

Lemma matches_permutation (descs descs' : list string) (key : string) :
  Permutation descs descs' -> matches descs key = matches descs' key.
Proof.
  unfold matches. induction 1 as [|d l l' _ IH|d d' l|l l' l'' _ IH1 _ IH2];
    simpl.
  - reflexivity.
  - now rewrite IH.
  - now rewrite !orb_assoc, (orb_comm (includes d' key)).
  - now rewrite IH1.
Qed.

Lemma pick_permutation (entries : list (string * string))
    (descs descs' : list string) (fallback : string) :
  Permutation descs descs' ->
  pick entries descs fallback = pick entries descs' fallback.
Proof.
  intros Hperm. induction entries as [|[key url] rest IH]; simpl;
    [reflexivity|].
  now rewrite (matches_permutation _ _ key Hperm), IH.
Qed.

(** X2. When the descriptions are strings, their order in the array does
    not matter to [updateBackground]: a reordered array gives the same
    call of [setBgImage] and the same state.  Only the order of the table
    decides between two keywords that both occur. *)
Theorem updateBackground_ignores_description_order :
  forall (arr arr' : list Weather.t) (descs : list string)
         (s : WeatherApi.State),
    map Weather.description arr = map JStr descs ->
    Permutation arr arr' ->
    run (WeatherApi.updateBackground arr') s
    = run (WeatherApi.updateBackground arr) s.
Proof.
  intros arr arr' descs s Hdescs Hperm.
  assert (Hmap : Permutation (map Weather.description arr')
                             (map JStr descs)).
  { rewrite <- Hdescs. apply Permutation_map. now symmetry. }
  apply Permutation_map_inv in Hmap as (descs' & Hdescs' & Hperm').
  rewrite (updateBackground_strings arr descs s Hdescs).
  rewrite (updateBackground_strings arr' descs' s Hdescs').
  now rewrite (pick_permutation _ descs descs' _ Hperm').
Qed.

Lemma updateBackground_ignores_description_order_witness :
  bgImage (final_state
             (WeatherApi.updateBackground
                [weather_of "Rain at times"; weather_of "Clear spells"])
             WeatherApi.initial)
  = "https://images.unsplash.com/photo-1601134467661-3a775e007848"
  /\ run (WeatherApi.updateBackground
            [weather_of "Clear spells"; weather_of "Rain at times"])
         WeatherApi.initial
     = run (WeatherApi.updateBackground
              [weather_of "Rain at times"; weather_of "Clear spells"])
           WeatherApi.initial.
Proof.
  split; [reflexivity|].
  apply (updateBackground_ignores_description_order
           [weather_of "Rain at times"; weather_of "Clear spells"]
           [weather_of "Clear spells"; weather_of "Rain at times"]
           ["Rain at times"; "Clear spells"] WeatherApi.initial eq_refl).
  apply perm_swap.
Defined.

Lemma some_includes_throws (descs : list JsVal) (key : string) (e : JsError) :
  some_includes descs key = Throw e ->
  exists desc, In desc descs /\ searchable desc = false.
Proof.
  induction descs as [|desc rest IH]; simpl; [discriminate|].
  destruct desc; simpl; try (intros _; eexists; split; [now left|reflexivity]).
  - destruct (includes s key); [discriminate|].
    intros Hrest. destruct (IH Hrest) as (d & Hin & Hd).
    exists d. split; [now right|exact Hd].
  - destruct (existsb (is_string key) items); [discriminate|].
    intros Hrest. destruct (IH Hrest) as (d & Hin & Hd).
    exists d. split; [now right|exact Hd].
Qed.

Lemma selection_outcome (entries : list (string * string))
    (descs : list JsVal) (fallback : string) :
  match selection entries descs fallback with
  | Normal url => url = fallback \/ In url (map snd entries)
  | Throw _ => exists desc, In desc descs /\ searchable desc = false
  end.
Proof.
  induction entries as [|[key url] rest IH]; simpl; [now left|].
  destruct (some_includes descs key) as [[|]|e] eqn:Hsome; simpl.
  - right. now left.
  - destruct (selection rest descs fallback); [|exact IH].
    destruct IH as [->|Hin]; [now left|right; now right].
  - eapply some_includes_throws. exact Hsome.
Qed.

(** X3. For any array, whatever its descriptions hold, [updateBackground]
    does one of two things: it calls [setBgImage] once with a URL of the
    table and touches nothing else, or it throws without a setter call and
    leaves the state as it was; it throws only when some description is
    neither a string nor an array. *)
Theorem updateBackground_sets_table_url_or_throws :
  forall (arr : list Weather.t) (s : WeatherApi.State),
    (exists url,
        In url (map snd WeatherApi.backgroundImages)
        /\ run (WeatherApi.updateBackground arr) s
           = (Normal tt,
              mkWorld (mkState (data s) (loading s) (city s) url (error s))
                      [SetBgImage url]))
    \/ (exists e w,
           In w arr
           /\ searchable (Weather.description w) = false
           /\ run (WeatherApi.updateBackground arr) s
              = (Throw e, mkWorld s [])).
Proof.
  intros arr s. unfold run, WeatherApi.updateBackground.
  rewrite scan_selection.
  pose proof (selection_outcome WeatherApi.backgroundImages
                (map Weather.description arr)
                (WeatherApi.member WeatherApi.backgroundImages "default"))
    as Hsel.
  destruct (selection _ _ _) as [url|e].
  - left. exists url. split; [|reflexivity].
    destruct Hsel as [->|Hin]; [|exact Hin].
    simpl. tauto.
  - right. destruct Hsel as (desc & Hin & Hdesc).
    apply in_map_iff in Hin as (w & <- & Hw).
    now exists e, w.
Qed.

(* ================================================================== *)
(** ** Handlers only append to the log *)
(* ================================================================== *)

Section Frames.
Context {D B : Type}.

Lemma appends_only_ret {A} (a : A) : appends_only (@ret D B A a).
Proof. intros [s l]. unfold ret, outcome, final_state, calls, run. simpl.
  now rewrite app_nil_r. Qed.

Lemma appends_only_eval {A} (c : Completion A) :
  appends_only (@eval D B A c).
Proof. intros [s l]. unfold eval, outcome, final_state, calls, run. simpl.
  now rewrite app_nil_r. Qed.

Lemma appends_only_read_city : appends_only (@read_city D B).
Proof. intros [s l]. unfold read_city, outcome, final_state, calls, run.
  simpl. now rewrite app_nil_r. Qed.

Lemma appends_only_write (f : State D B -> State D B) (e : Event D B) :
  appends_only (write f e).
Proof. intros [s l]. reflexivity. Qed.

(** How a sequence runs once its parts are known to append only. *)
Lemma run_bind {A C} (m : M D B A) (k : A -> M D B C) (s : State D B) :
  appends_only m ->
  (forall a, appends_only (k a)) ->
  run (bind m k) s
  = match outcome m s with
    | Normal a =>
        (outcome (k a) (final_state m s),
         mkWorld (final_state (k a) (final_state m s))
                 (calls m s ++ calls (k a) (final_state m s)))
    | Throw e => (Throw e, mkWorld (final_state m s) (calls m s))
    end.
Proof.
  intros Hm Hk. unfold run at 1, bind.
  unfold outcome, final_state, calls.
  destruct (run m s) as [[a|e] [s1 l1]] eqn:Hrun; unfold run in Hrun;
    rewrite Hrun; simpl; [|reflexivity].
  rewrite (Hk a (mkWorld s1 l1)). reflexivity.
Qed.

Lemma appends_only_bind {A C} (m : M D B A) (k : A -> M D B C) :
  appends_only m ->
  (forall a, appends_only (k a)) ->
  appends_only (bind m k).
Proof.
  intros Hm Hk w.
  unfold outcome, final_state, calls. rewrite (run_bind m k _ Hm Hk).
  unfold bind. rewrite (Hm w).
  destruct (outcome m (state w)) as [a|e]; simpl; [|reflexivity].
  rewrite (Hk a). simpl. now rewrite app_assoc.
Qed.

Lemma appends_only_try {A} (body : M D B A) (handler : JsError -> M D B A)
    (cleanup : M D B unit) :
  appends_only body ->
  (forall e, appends_only (handler e)) ->
  appends_only cleanup ->
  appends_only (try_catch_finally body handler cleanup).
Proof.
  intros Hbody Hhandler Hcleanup w.
  unfold outcome, final_state, calls, run, try_catch_finally.
  rewrite (Hbody w), (Hbody (mkWorld (state w) [])). simpl.
  destruct (outcome body (state w)) as [a|e].
  - rewrite !Hcleanup. simpl.
    destruct (outcome cleanup _); simpl; now rewrite app_assoc.
  - rewrite !(Hhandler e). simpl. rewrite !Hcleanup. simpl.
    destruct (outcome cleanup _); simpl; now rewrite !app_assoc.
Qed.

(** Consequences for the three observations of a run. *)
Lemma final_state_bind {A C} (m : M D B A) (k : A -> M D B C)
    (s : State D B) (a : A) :
  appends_only m -> (forall x, appends_only (k x)) ->
  outcome m s = Normal a ->
  final_state (bind m k) s = final_state (k a) (final_state m s)
  /\ outcome (bind m k) s = outcome (k a) (final_state m s)
  /\ calls (bind m k) s = calls m s ++ calls (k a) (final_state m s).
Proof.
  intros Hm Hk Hout.
  unfold final_state at 1, outcome at 1, calls at 1.
  rewrite (run_bind m k s Hm Hk), Hout. now repeat split.
Qed.

End Frames.

Ltac frames :=
  repeat (intros;
          match goal with
          | |- appends_only (bind _ _) => apply appends_only_bind
          | |- appends_only (ret _) => apply appends_only_ret
          | |- appends_only (eval _) => apply appends_only_eval
          | |- appends_only read_city => apply appends_only_read_city
          | |- appends_only (write _ _) => apply appends_only_write
          | |- appends_only (try_catch_finally _ _ _) =>
              apply appends_only_try
          | |- appends_only (if ?b then _ else _) => destruct b
          end).

Section WeatherFrames.
Import WeatherApi.
Context {conv : Conversions} {env : Env}.

Lemma appends_only_scan (entries : list (string * string))
    (descs : list JsVal) : appends_only (scan entries descs).
Proof.
  induction entries as [|[key url] rest IH]; simpl.
  - apply appends_only_write.
  - frames; [apply appends_only_write|exact IH].
Qed.

Lemma appends_only_fetchData_begin : appends_only fetchData_begin.
Proof. unfold fetchData_begin, setLoading, setError. frames. Qed.

Lemma appends_only_fetchData_settle (settled : HttpResult) :
  appends_only (fetchData_settle settled).
Proof.
  unfold fetchData_settle, try_block, catch_block, finally_block,
    updateBackground, setData, setError, setLoading.
  frames. intros _. apply appends_only_scan.
Qed.

Lemma appends_only_fetchData : appends_only fetchData.
Proof.
  unfold fetchData. frames.
  - apply appends_only_fetchData_begin.
  - intros url. apply appends_only_fetchData_settle.
Qed.

(** Whether the [try] block completes is decided by the answer alone. *)
Lemma try_block_outcome (settled : HttpResult)
    (w : World (option WeatherData.t) string) :
  completes (fst (try_block settled w))
  = completes
      (cbind (axios_settle settled) (fun response =>
       cbind (formattedData (response_data response)) (fun d =>
       selection backgroundImages
         (map Weather.description (WeatherData.weather d))
         (member backgroundImages "default")))).
Proof.
  unfold try_block, bind, eval, cbind.
  destruct (axios_settle settled) as [response|e]; [|reflexivity].
  destruct (formattedData (response_data response)) as [d|e];
    [|reflexivity].
  unfold setData, write. cbn beta iota.
  unfold updateBackground. rewrite scan_selection.
  now destruct (selection _ _ _).
Qed.

Lemma fetch_fails_accepted (s : State) :
  fetch_fails s = negb (WeatherPage.accepted (http_get (API_URL (city s)))).
Proof.
  rewrite fetch_fails_run. unfold WeatherPage.accepted.
  now rewrite !try_block_outcome.
Qed.

Lemma some_includes_searchable (descs : list JsVal) (key : string) :
  (forall desc, In desc descs -> searchable desc = true) ->
  exists hit, some_includes descs key = Normal hit.
Proof.
  induction descs as [|desc rest IH]; simpl; intros Hall; [eauto|].
  assert (Hdesc := Hall desc (or_introl eq_refl)).
  destruct IH as [hit Hhit]; [intros d Hd; apply Hall; now right|].
  destruct desc; try discriminate; simpl.
  - destruct (includes s key); eauto.
  - destruct (existsb (is_string key) items); eauto.
Qed.

Lemma selection_searchable (entries : list (string * string))
    (descs : list JsVal) (fallback : string) :
  (forall desc, In desc descs -> searchable desc = true) ->
  exists url, selection entries descs fallback = Normal url.
Proof.
  intros Hall. induction entries as [|[key url] rest IH]; simpl; [eauto|].
  destruct (some_includes_searchable descs key Hall) as [[|] ->]; simpl;
    eauto.
Qed.

End WeatherFrames.

(* ================================================================== *)
(** ** Which answers [src/App.tsx] accepts *)
(* ================================================================== *)

Lemma get_of_nullish (v : JsVal) (name : string) :
  nullish v = true -> get v name = Throw TypeError.
Proof. destruct v; simpl; try discriminate; reflexivity. Qed.

Lemma get_total (v : JsVal) (name : string) :
  nullish v = false -> exists x, get v name = Normal x.
Proof.
  destruct v; simpl; try discriminate; eauto.
  destruct (own_property name fields); eauto.
Qed.

Lemma get_completes (v x : JsVal) (name : string) :
  get v name = Normal x -> nullish v = false.
Proof. destruct v; simpl; try discriminate; reflexivity. Qed.

(** X5. The reshaping of a response body in [src/App.tsx] completes
    exactly when [location], [current] and [current.condition] are
    neither [null] nor [undefined] and the icon converts to a string.  No
    other field is required: a missing [temp_c], [humidity] or [name] is
    stored as [undefined]. *)
Theorem formattedData_completes_iff {conv : Conversions} :
  forall body : JsVal,
    completes (WeatherApi.formattedData body) = true
    <-> exists location current condition icon,
          get body "location" = Normal location
          /\ nullish location = false
          /\ get body "current" = Normal current
          /\ nullish current = false
          /\ get current "condition" = Normal condition
          /\ nullish condition = false
          /\ get condition "icon" = Normal icon
          /\ completes (ToString icon) = true.
Proof.
  intros body. unfold WeatherApi.formattedData. simpl path. unfold cbind.
  split.
  - intros Hdone.
    destruct (get body "location") as [location|] eqn:Hlocation;
      [|discriminate].
    destruct (get location "name") as [name|] eqn:Hname; [|discriminate].
    destruct (get body "current") as [current|] eqn:Hcurrent;
      [|discriminate].
    destruct (get current "condition") as [condition|] eqn:Hcondition;
      [|discriminate].
    destruct (get condition "code") as [code|] eqn:Hcode; [|discriminate].
    destruct (get condition "text") as [text|]; [|discriminate].
    destruct (get condition "icon") as [icon|] eqn:Hicon; [|discriminate].
    destruct (ToString icon) as [icon_text|] eqn:Hstring; [|discriminate].
    exists location, current, condition, icon.
    repeat split; eauto using get_completes.
    now rewrite Hstring.
  - intros (location & current & condition & icon & Hlocation & Hloc
            & Hcurrent & Hcur & Hcondition & Hcond & Hicon & Hstring).
    rewrite Hlocation, Hcurrent, Hcondition, Hicon.
    destruct (get_total location "name" Hloc) as [? ->].
    destruct (get_total condition "code" Hcond) as [? ->].
    destruct (get_total condition "text" Hcond) as [? ->].
    destruct (ToString icon); [|discriminate].
    destruct (get_total current "temp_c" Hcur) as [? ->].
    destruct (get_total current "feelslike_c" Hcur) as [? ->].
    destruct (get_total current "pressure_mb" Hcur) as [? ->].
    destruct (get_total current "humidity" Hcur) as [? ->].
    reflexivity.
Qed.

Lemma formattedData_completes_iff_witness :
  completes
    (@WeatherApi.formattedData sample_conversions
       (JObj [ ("location", JObj []);
               ("current",
                JObj [ ("condition", JObj [ ("icon", JStr "//x.png") ]) ]) ]))
  = true.
Proof.
  apply (proj2 (@formattedData_completes_iff sample_conversions _)).
  exists (JObj []), (JObj [ ("condition", JObj [ ("icon", JStr "//x.png") ]) ]),
         (JObj [ ("icon", JStr "//x.png") ]), (JStr "//x.png").
  repeat split.
Defined.

Lemma axios_settle_2xx (status : Z) (body : JsVal) :
  (200 <= status < 300)%Z ->
  axios_settle (HttpResponse status body) = Normal (mkResponse status body).
Proof.
  intros [Hlow Hhigh]. simpl.
  apply Z.leb_le in Hlow. apply Z.ltb_lt in Hhigh.
  now rewrite Hlow, Hhigh.
Qed.

(** X4. A fetch of [src/App.tsx] succeeds exactly when the status is
    within 200..299, the body can be reshaped, and the condition text is a
    string or an array.  Any other condition text (missing, [null], a
    number, an object) makes the fetch fail although the body was
    reshaped. *)
Theorem fetch_succeeds_iff {conv : Conversions} {env : WeatherApi.Env} :
  forall s : WeatherApi.State,
    WeatherApi.fetch_fails s = false
    <-> exists status body text,
          WeatherApi.http_get (WeatherApi.API_URL (city s))
          = HttpResponse status body
          /\ (200 <= status < 300)%Z
          /\ completes (WeatherApi.formattedData body) = true
          /\ path body ["current"; "condition"; "text"] = Normal text
          /\ searchable text = true.
Proof.
  intros s. rewrite fetch_fails_accepted. unfold WeatherPage.accepted.
  rewrite try_block_outcome. unfold cbind. split.
  - intros Haccepted. apply negb_false_iff in Haccepted.
    destruct (axios_settle _) as [response|] eqn:Haxios; [|discriminate].
    destruct (WeatherApi.formattedData _) as [d|] eqn:Hformat;
      [|discriminate].
    destruct (axios_settle_resolved _ _ Haxios) as [Hsettled Hrange].
    destruct (formattedData_fields _ _ Hformat)
      as (_ & _ & _ & _ & _ & _ & _ & text & Htext & Hdescs).
    exists (response_status response), (response_data response), text.
    rewrite Hformat. repeat split; try assumption; try lia.
    rewrite Hdescs in Haccepted.
    destruct text; try reflexivity; discriminate.
  - intros (status & body & text & Hsettled & Hrange & Hformat & Htext
            & Hsearch).
    rewrite Hsettled, (axios_settle_2xx _ _ Hrange). simpl response_data.
    destruct (WeatherApi.formattedData body) as [d|] eqn:Hbody;
      [|discriminate].
    destruct (formattedData_fields _ _ Hbody)
      as (_ & _ & _ & _ & _ & _ & _ & text' & Htext' & Hdescs).
    rewrite Htext in Htext'. injection Htext' as <-. rewrite Hdescs.
    destruct (selection_searchable WeatherApi.backgroundImages [text]
                (WeatherApi.member WeatherApi.backgroundImages "default"))
      as [url ->]; [|reflexivity].
    intros desc [<-|[]]. exact Hsearch.
Qed.

Lemma fetch_succeeds_iff_witness :
  @WeatherApi.fetch_fails sample_conversions
     (answering (HttpResponse 204 (current_json (JArr []) 3)))
     WeatherApi.initial
  = false.
Proof.
  apply (proj2 (@fetch_succeeds_iff sample_conversions
                  (answering (HttpResponse 204 (current_json (JArr []) 3)))
                  WeatherApi.initial)).
  exists 204%Z, (current_json (JArr []) 3), (JArr []).
  repeat split; try reflexivity; lia.
Defined.

(** X6. When the body of an accepted answer has no [current.temp_c], the
    snapshot stores [undefined] and the page shows "NaN°C" as the
    temperature, the minimum and the maximum; no error is reported. *)
Theorem missing_temperature_shows_NaN
    {conv : Conversions} {env : WeatherApi.Env} :
  forall (s : WeatherApi.State) (status : Z) (body : JsVal),
    WeatherApi.http_get (WeatherApi.API_URL (city s))
    = HttpResponse status body ->
    WeatherApi.fetch_fails s = false ->
    path body ["current"; "temp_c"] = Normal JUndefined ->
    exists d,
      data (final_state WeatherApi.fetchData s) = Some d
      /\ error (final_state WeatherApi.fetchData s) = None
      /\ WeatherApi.temperature_text d = Normal "NaN°C"
      /\ WeatherApi.min_temp_text d = Normal "NaN°C"
      /\ WeatherApi.max_temp_text d = Normal "NaN°C".
Proof.
  intros s status body Hsettled Hok Hmissing.
  destruct (fetchData_cases s)
    as [[_ (response & d & url & Haxios & Hformat & _ & Hrun)]|[Hfails _]];
    [|congruence].
  destruct (axios_settle_resolved _ _ Haxios) as [Hresolved _].
  rewrite Hsettled in Hresolved. injection Hresolved as _ Hbody.
  rewrite <- Hbody in Hformat.
  destruct (formattedData_fields _ _ Hformat) as (Htemp & _ & Hmin & Hmax & _).
  rewrite Hmissing in Htemp. injection Htemp as Htemp.
  exists d. unfold final_state. rewrite Hrun. simpl.
  unfold WeatherApi.temperature_text, WeatherApi.min_temp_text,
    WeatherApi.max_temp_text.
  rewrite Hmin, Hmax, <- Htemp. now repeat split.
Qed.

Lemma missing_temperature_shows_NaN_witness :
  exists d,
    data (final_state
            (@WeatherApi.fetchData sample_conversions
               (answering
                  (HttpResponse 200
                     (JObj [ ("location", JObj [ ("name", JStr "Hunza") ]);
                             ("current",
                              JObj [ ("condition",
                                      JObj [ ("text", JStr "Clear");
                                             ("icon", JStr "//x.png") ]) ]) ]))))
            WeatherApi.initial) = Some d
    /\ @WeatherApi.temperature_text sample_conversions d = Normal "NaN°C".
Proof.
  destruct (@missing_temperature_shows_NaN sample_conversions
              (answering
                 (HttpResponse 200
                    (JObj [ ("location", JObj [ ("name", JStr "Hunza") ]);
                            ("current",
                             JObj [ ("condition",
                                     JObj [ ("text", JStr "Clear");
                                            ("icon", JStr "//x.png") ]) ]) ])))
              WeatherApi.initial _ _ eq_refl eq_refl eq_refl)
    as (d & Hdata & _ & Htext & _).
  now exists d.
Defined.

(* ================================================================== *)
(** ** Rounding at render time *)
(* ================================================================== *)

(** X7. A stored temperature [q] is shown as an integer [n] with
    [n - 1/2 <= q < n + 1/2]: the text is off by at most half a degree and
    a tie is rounded up.  Up to 2^53 in magnitude the integer is printed
    in decimal digits. *)
Theorem shown_temperature_within_half_degree {conv : Conversions} :
  forall q : Q,
    exists n : Z,
      Math_round (Finite q) = Finite (inject_Z n)
      /\ (inject_Z n - (1 # 2) <= q)%Q
      /\ (q < inject_Z n + (1 # 2))%Q
      /\ ((Z.abs n <= 2 ^ 53)%Z ->
          WeatherApi.degrees (JNum q) = Normal (decimal n ++ "°C")%string).
Proof.
  intros q. exists (Qfloor (q + (1 # 2))).
  pose proof (Qfloor_le (q + (1 # 2))) as Hlow.
  pose proof (Qlt_floor (q + (1 # 2))) as Hhigh.
  rewrite inject_Z_plus in Hhigh. change (inject_Z 1) with 1%Q in Hhigh.
  split; [reflexivity|].
  split; [|split].
  - set (n := inject_Z (Qfloor (q + (1 # 2)))) in *. lra.
  - set (n := inject_Z (Qfloor (q + (1 # 2)))) in *. lra.
  - intros Hsmall. rewrite degrees_of_number.
    now rewrite NumberToString_integer.
Qed.

Lemma shown_temperature_within_half_degree_witness :
  @WeatherApi.degrees sample_conversions (JNum (-7.5)) = Normal "-7°C".
Proof.
  destruct (@shown_temperature_within_half_degree sample_conversions (-7.5)%Q)
    as (n & Hround & _ & _ & Htext).
  injection Hround as Hn. subst n.
  rewrite Htext; [reflexivity|]. vm_compute. discriminate.
Defined.

(* ================================================================== *)
(** ** Repeated and successive fetches in [src/App.tsx] *)
(* ================================================================== *)

Section Sessions.
Import WeatherApi.
Context {conv : Conversions} {env : Env}.

Lemma fetch_fails_by_city (s1 s2 : State) :
  city s1 = city s2 -> fetch_fails s2 = fetch_fails s1.
Proof. intros Hcity. now rewrite !fetch_fails_accepted, Hcity. Qed.

Lemma default_listed :
  In (member backgroundImages "default") (map snd backgroundImages).
Proof. simpl. tauto. Qed.

(** A fetch from any state ends at rest, with the query untouched. *)
Lemma fetchData_at_rest (s : State) :
  (bgImage s = "" \/ In (bgImage s) (map snd backgroundImages)) ->
  outcome fetchData s = Normal tt
  /\ at_rest (final_state fetchData s)
  /\ city (final_state fetchData s) = city s.
Proof.
  intros Hbg. unfold outcome, final_state, at_rest.
  destruct (fetchData_cases s)
    as [[_ (response & d & url & _ & _ & Hselect & Hrun)]
       |[_ (before & _ & Hrun)]]; rewrite Hrun; simpl.
  - repeat split; auto. right.
    pose proof (selection_outcome backgroundImages
                  (map Weather.description (WeatherData.weather d))
                  (member backgroundImages "default")) as Hsel.
    rewrite Hselect in Hsel. destruct Hsel as [->|Hin]; [|exact Hin].
    apply default_listed.
  - repeat split; auto.
Qed.

Lemma appends_only_handle (input : Events.Input) :
  appends_only (WeatherPage.handle input).
Proof.
  destruct input; simpl; try apply appends_only_fetchData.
  - apply appends_only_write.
  - unfold Events.onKeyPress. frames. apply appends_only_fetchData.
Qed.

Lemma appends_only_session (inputs : list Events.Input) :
  appends_only (WeatherPage.session inputs).
Proof.
  induction inputs as [|input rest IH]; simpl.
  - apply appends_only_ret.
  - apply appends_only_bind; [apply appends_only_handle|intros _; exact IH].
Qed.

Lemma handle_at_rest (input : Events.Input) (s : State) :
  at_rest s ->
  outcome (WeatherPage.handle input) s = Normal tt
  /\ at_rest (final_state (WeatherPage.handle input) s)
  /\ city (final_state (WeatherPage.handle input) s)
     = typed [input] (city s).
Proof.
  intros Hrest.
  assert (Hbg : bgImage s = "" \/ In (bgImage s) (map snd backgroundImages))
    by apply Hrest.
  destruct input as [|value|key|]; simpl;
    try (apply fetchData_at_rest; exact Hbg).
  - repeat split; apply Hrest.
  - unfold Events.onKeyPress. destruct (key =? "Enter")%string.
    + apply fetchData_at_rest; exact Hbg.
    + repeat split; apply Hrest.
Qed.

(** After an accepted answer the state is a function of the query. *)
Lemma accepted_final_state (s : State) :
  fetch_fails s = false ->
  exists d url,
    forall s', city s' = city s ->
      final_state fetchData s' = mkState (Some d) false (city s) url None.
Proof.
  intros Hok.
  destruct (fetchData_cases s)
    as [[_ (r & d & u & Ha & Hf & Hs & _)]|[Hfails _]]; [|congruence].
  exists d, u. intros s' Hcity.
  assert (Hok' : fetch_fails s' = false)
    by now rewrite (fetch_fails_by_city s s' (eq_sym Hcity)).
  destruct (fetchData_cases s')
    as [[_ (r' & d' & u' & Ha' & Hf' & Hs' & Hrun')]|[Hfails _]];
    [|congruence].
  rewrite Hcity, Ha in Ha'. injection Ha' as <-.
  rewrite Hf in Hf'. injection Hf' as <-.
  rewrite Hs in Hs'. injection Hs' as <-.
  unfold final_state. now rewrite Hrun', Hcity.
Qed.

Lemma session_at_rest_from (inputs : list Events.Input) (s : State) :
  at_rest s ->
  outcome (WeatherPage.session inputs) s = Normal tt
  /\ at_rest (final_state (WeatherPage.session inputs) s)
  /\ city (final_state (WeatherPage.session inputs) s)
     = typed inputs (city s).
Proof.
  revert s. induction inputs as [|input rest IH]; intros s Hrest.
  - repeat split; apply Hrest.
  - destruct (handle_at_rest input s Hrest) as (Hout & Hnext & Hcity).
    destruct (final_state_bind (WeatherPage.handle input)
                (fun _ => WeatherPage.session rest) s tt
                (appends_only_handle input)
                (fun _ => appends_only_session rest) Hout)
      as (Hfinal & Houtcome & _).
    change (WeatherPage.session (input :: rest))
      with (bind (WeatherPage.handle input)
                 (fun _ => WeatherPage.session rest)).
    rewrite Hfinal, Houtcome.
    destruct (IH _ Hnext) as (Hout' & Hrest' & Hcity').
    split; [exact Hout'|split; [exact Hrest'|]].
    rewrite Hcity', Hcity. reflexivity.
Qed.

End Sessions.

(** X8. A fetch of [src/App.tsx] that succeeds replaces the snapshot, the
    background, the error and the loading flag and reads nothing of them:
    from two states with the same query it makes the same setter calls and
    ends in the same state. *)
Theorem successful_fetch_overwrites
    {conv : Conversions} {env : WeatherApi.Env} :
  forall s1 s2 : WeatherApi.State,
    city s1 = city s2 ->
    WeatherApi.fetch_fails s1 = false ->
    run WeatherApi.fetchData s2 = run WeatherApi.fetchData s1.
Proof.
  intros s1 s2 Hcity Hok.
  assert (Hok2 : WeatherApi.fetch_fails s2 = false)
    by now rewrite (fetch_fails_by_city s1 s2 Hcity).
  destruct (fetchData_cases s1)
    as [[_ (r1 & d1 & u1 & Ha1 & Hf1 & Hs1 & Hrun1)]|[Hfails _]];
    [|congruence].
  destruct (fetchData_cases s2)
    as [[_ (r2 & d2 & u2 & Ha2 & Hf2 & Hs2 & Hrun2)]|[Hfails _]];
    [|congruence].
  rewrite <- Hcity in Ha2. rewrite Ha1 in Ha2. injection Ha2 as <-.
  rewrite Hf1 in Hf2. injection Hf2 as <-.
  rewrite Hs1 in Hs2. injection Hs2 as <-.
  now rewrite Hrun1, Hrun2, Hcity.
Qed.

Lemma successful_fetch_overwrites_witness :
  run (@WeatherApi.fetchData sample_conversions
         (answering (HttpResponse 200 (current_json (JStr "Sunny") 21.6))))
      (mkState (Some sample_snapshot) true "skardu" "about:blank"
               (Some "stale"))
  = run (@WeatherApi.fetchData sample_conversions
           (answering (HttpResponse 200 (current_json (JStr "Sunny") 21.6))))
        WeatherApi.initial.
Proof.
  apply (@successful_fetch_overwrites sample_conversions
           (answering (HttpResponse 200 (current_json (JStr "Sunny") 21.6))));
    reflexivity.
Defined.

(** X9. Fetching again for the same query and the same answer changes
    nothing: the state after two fetches of [src/App.tsx] in a row is the
    state after one, whether the fetch succeeds or fails. *)
Theorem fetchData_idempotent {conv : Conversions} {env : WeatherApi.Env} :
  forall s : WeatherApi.State,
    final_state WeatherApi.fetchData (final_state WeatherApi.fetchData s)
    = final_state WeatherApi.fetchData s.
Proof.
  intros s.
  assert (Hcity : city s = city (final_state WeatherApi.fetchData s)).
  { unfold final_state.
    destruct (fetchData_cases s)
      as [[_ (r & d & u & _ & _ & _ & Hrun)]|[_ (before & _ & Hrun)]];
      now rewrite Hrun. }
  destruct (WeatherApi.fetch_fails s) eqn:Hfails.
  - assert (Hfails' := fetch_fails_by_city s _ Hcity).
    rewrite Hfails in Hfails'.
    destruct (fetchData_cases (final_state WeatherApi.fetchData s))
      as [[Hok _]|[_ (before' & _ & Hrun')]]; [congruence|].
    unfold final_state at 1. rewrite Hrun'. simpl.
    unfold final_state.
    destruct (fetchData_cases s)
      as [[Hok _]|[_ (before & _ & Hrun)]]; [congruence|].
    now rewrite Hrun.
  - destruct (accepted_final_state s Hfails) as (d & url & Hfinal).
    rewrite (Hfinal s eq_refl).
    now rewrite (Hfinal (mkState (Some d) false (city s) url None) eq_refl).
Qed.

(** X10. Typing sends nothing.  For any list of inputs that are changes
    of the box or presses of a key other than "Enter", in either version
    (whatever [fetchData] is), the handlers never run [fetchData]: their
    only setter calls are one [setCity] per change, in order, the query
    ends as the last text typed, and the data, the loading flag, the
    background and the error are those of before. *)
Theorem typing_sends_no_request :
  forall (D B : Type) (fetchData : M D B unit)
         (inputs : list Events.Input) (w : World D B),
    forallb quiet inputs = true ->
    Events.session fetchData inputs w
    = (Normal tt,
       mkWorld (mkState (data (state w)) (loading (state w))
                        (typed inputs (city (state w)))
                        (bgImage (state w)) (error (state w)))
               (log w ++ map SetCity (keystrokes inputs))).
Proof.
  intros D B fetchData inputs.
  induction inputs as [|input rest IH]; intros [s l] Hquiet.
  - simpl. rewrite app_nil_r. now destruct s.
  - simpl in Hquiet. apply andb_true_iff in Hquiet as [Hinput Hrest].
    change (Events.session fetchData (input :: rest))
      with (bind (Events.handle fetchData input)
                 (fun _ => Events.session fetchData rest)).
    unfold bind. destruct input as [|value|key|]; try discriminate.
    + simpl. rewrite (IH _ Hrest). simpl. now rewrite <- app_assoc.
    + simpl in Hinput. apply negb_true_iff in Hinput.
      simpl. unfold Events.onKeyPress. rewrite Hinput. simpl.
      now rewrite (IH _ Hrest).
Qed.

Lemma typing_sends_no_request_witness :
  run (@WeatherPage.session sample_conversions (answering NetworkFailure)
         [ Events.Change "G"; Events.Change "Gi"; Events.KeyPress "enter";
           Events.Change "Gil" ])
      showing_oslo
  = (Normal tt,
     mkWorld (mkState (Some sample_snapshot) false "Gil"
                "https://images.unsplash.com/photo-1601134467661-3a775e007848"
                None)
             [SetCity "G"; SetCity "Gi"; SetCity "Gil"]).
Proof.
  exact (typing_sends_no_request _ _
           (@WeatherApi.fetchData sample_conversions (answering NetworkFailure))
           [ Events.Change "G"; Events.Change "Gi"; Events.KeyPress "enter";
             Events.Change "Gil" ]
           (mkWorld showing_oslo []) eq_refl).
Defined.

(** X11. From the initial state, after any list of inputs handled one
    after the other, [src/App.tsx] is at rest: no handler threw, nothing
    is loading, the error is absent or the fixed message, the data and the
    error are not both shown, the background is the empty string or a URL
    of the table, and the query is the last text typed ("skardu" if
    none). *)
Theorem session_ends_at_rest {conv : Conversions} {env : WeatherApi.Env} :
  forall inputs : list Events.Input,
    outcome (WeatherPage.session inputs) WeatherApi.initial = Normal tt
    /\ at_rest (final_state (WeatherPage.session inputs) WeatherApi.initial)
    /\ city (final_state (WeatherPage.session inputs) WeatherApi.initial)
       = typed inputs "skardu".
Proof.
  intros inputs. apply session_at_rest_from.
  unfold at_rest. simpl. repeat split; auto.
Qed.

(* ================================================================== *)
(** ** Overlapping fetches in [src/App.tsx] *)
(* ================================================================== *)

Section Overlap.
Import WeatherApi.
Context {conv : Conversions} {env : Env}.

(** An accepted answer writes its snapshot and background whatever the
    state is, and leaves the error as it finds it. *)
Lemma settle_accepted (settled : HttpResult) :
  WeatherPage.accepted settled = true ->
  exists d url,
    forall w,
      fetchData_settle settled w
      = (Normal tt,
         mkWorld (mkState (Some d) false (city (state w)) url
                          (error (state w)))
                 (log w ++ [SetData (Some d); SetBgImage url;
                            SetLoading false])).
Proof.
  unfold WeatherPage.accepted. rewrite try_block_outcome. unfold cbind.
  destruct (axios_settle settled) as [response|] eqn:Haxios; [|discriminate].
  destruct (formattedData (response_data response)) as [d|] eqn:Hformat;
    [|discriminate].
  destruct (selection _ _ _) as [url|] eqn:Hselect; [|discriminate].
  intros _. exists d, url. intros w.
  unfold fetchData_settle, try_catch_finally, try_block, bind, eval.
  rewrite Haxios, Hformat. unfold setData, write. cbn beta iota.
  unfold updateBackground. rewrite scan_selection, Hselect.
  unfold finally_block, setLoading, setBgImage, write. simpl.
  now rewrite <- !app_assoc.
Qed.

(** A rejected answer writes the message and clears the data whatever the
    state is, and leaves the background as it finds it. *)
Lemma settle_rejected (settled : HttpResult)
    (w : World (option WeatherData.t) string) :
  WeatherPage.accepted settled = false ->
  fst (fetchData_settle settled w) = Normal tt
  /\ state (snd (fetchData_settle settled w))
     = mkState None false (city (state w)) (bgImage (state w))
               (Some error_message).
Proof.
  unfold WeatherPage.accepted.
  rewrite try_block_outcome, <- (try_block_outcome settled w).
  intros Hrejected.
  unfold fetchData_settle, try_catch_finally.
  destruct (try_block_cases settled w)
    as [(response & d & url & _ & _ & _ & Htry)
       |[(e & Htry)|(e & d & Htry)]]; rewrite Htry in *;
    [discriminate| |]; split; reflexivity.
Qed.

Lemma steps_cons (st : Events.Step string) (rest : list (Events.Step string))
    (w : World (option WeatherData.t) string) :
  WeatherPage.steps (st :: rest) w
  = match Events.step fetchData_begin WeatherPage.resume st w with
    | (Normal _, w') => WeatherPage.steps rest w'
    | (Throw e, w') => (Throw e, w')
    end.
Proof. reflexivity. Qed.

End Overlap.

(** X12. A stale answer overwrites a newer query.  Issue a fetch, type
    another city, issue a second fetch; if the second answer arrives first
    and the first answer, an accepted one, arrives last, the page ends
    with the newer query in the box and the snapshot and background of the
    older one. *)
Theorem stale_answer_overwrites {conv : Conversions} {env : WeatherApi.Env} :
  forall (s : WeatherApi.State) (newer : string),
    WeatherApi.fetch_fails s = false ->
    let s' :=
      final_state
        (WeatherPage.steps
           [ Events.Issue; Events.Edit newer; Events.Issue;
             Events.Arrive (WeatherApi.API_URL newer);
             Events.Arrive (WeatherApi.API_URL (city s)) ]) s in
    city s' = newer
    /\ loading s' = false
    /\ data s' = data (final_state WeatherApi.fetchData s)
    /\ bgImage s' = bgImage (final_state WeatherApi.fetchData s).
Proof.
  intros s newer Hok s'. subst s'.
  rewrite fetch_fails_accepted in Hok. apply negb_false_iff in Hok.
  destruct (settle_accepted _ Hok) as (d & url & Hsettle).
  assert (Hone : final_state WeatherApi.fetchData s
                 = mkState (Some d) false (city s) url None).
  { unfold final_state. now rewrite fetchData_run, Hsettle. }
  rewrite Hone. unfold final_state, run, WeatherPage.steps.
  cbn -[WeatherPage.resume WeatherApi.API_URL]. unfold bind, ret.
  set (w := mkWorld _ _).
  destruct (WeatherPage.resume (WeatherApi.API_URL newer) w)
    as [[[]|e] w1] eqn:Harrive.
  - unfold WeatherPage.resume.
    rewrite !Hsettle. simpl.
    assert (Hcity : city (state w1) = newer).
    { unfold WeatherPage.resume in Harrive.
      destruct (WeatherPage.accepted
                  (WeatherApi.http_get (WeatherApi.API_URL newer)))
        eqn:Hnewer.
      - destruct (settle_accepted _ Hnewer) as (d' & url' & Hsettle').
        rewrite Hsettle' in Harrive. now injection Harrive as <-.
      - destruct (settle_rejected _ w Hnewer) as [_ Hstate].
        rewrite Harrive in Hstate. simpl in Hstate. now rewrite Hstate. }
    now rewrite Hcity.
  - exfalso. unfold WeatherPage.resume in Harrive.
    destruct (WeatherPage.accepted
                (WeatherApi.http_get (WeatherApi.API_URL newer))) eqn:Hnewer.
    + destruct (settle_accepted _ Hnewer) as (d' & url' & Hsettle').
      rewrite Hsettle' in Harrive. discriminate.
    + destruct (settle_rejected _ w Hnewer) as [Hout _].
      rewrite Harrive in Hout. discriminate.
Qed.

Lemma stale_answer_overwrites_witness :
  city (final_state
          (@WeatherPage.steps sample_conversions
             (answering (HttpResponse 200 (current_json (JStr "Sunny") 21.6)))
             [ Events.Issue; Events.Edit "Tokyo"; Events.Issue;
               Events.Arrive
                 (@WeatherApi.API_URL
                    (answering
                       (HttpResponse 200 (current_json (JStr "Sunny") 21.6)))
                    "Tokyo");
               Events.Arrive
                 (@WeatherApi.API_URL
                    (answering
                       (HttpResponse 200 (current_json (JStr "Sunny") 21.6)))
                    "skardu") ])
          WeatherApi.initial)
  = "Tokyo".
Proof.
  exact (proj1 (@stale_answer_overwrites sample_conversions
                  (answering
                     (HttpResponse 200 (current_json (JStr "Sunny") 21.6)))
                  WeatherApi.initial "Tokyo" eq_refl)).
Defined.

Section OverlapOutcome.
Import WeatherApi.
Context {conv : Conversions} {env : Env}.

(** The state after two requests were issued and two answers arrived. *)
Lemma two_arrivals (s : State) (first second : string) :
  final_state
    (WeatherPage.steps
       [Events.Issue; Events.Issue; Events.Arrive first;
        Events.Arrive second]) s
  = state (snd (fetchData_settle (http_get second)
                  (snd (fetchData_settle (http_get first)
                          (mkWorld
                             (mkState (data s) true (city s) (bgImage s) None)
                             [SetLoading true; SetError None;
                              SetLoading true; SetError None])))))
  \/ exists e, fst (fetchData_settle (http_get first)
                      (mkWorld
                         (mkState (data s) true (city s) (bgImage s) None)
                         [SetLoading true; SetError None;
                          SetLoading true; SetError None])) = Throw e.
Proof.
  unfold final_state, run, WeatherPage.steps.
  cbn -[fetchData_settle API_URL]. unfold bind, ret, WeatherPage.resume.
  destruct (fetchData_settle (http_get first) _) as [[[]|e] w1]; simpl.
  - left. now destruct (fetchData_settle (http_get second) w1) as [[[]|?] ?].
  - right. now exists e.
Qed.

End OverlapOutcome.

(** X13. With two fetches in flight the order of arrival decides what
    the page shows, and the data and the error can end up shown together:
    when the rejected answer arrives first and the accepted one last, the
    snapshot is set while the message of the failure stays; in the other
    order the data is cleared and the message set. *)
Theorem overlap_shows_data_and_error
    {conv : Conversions} {env : WeatherApi.Env} :
  forall (s : WeatherApi.State) (good bad : string),
    WeatherPage.accepted (WeatherApi.http_get good) = true ->
    WeatherPage.accepted (WeatherApi.http_get bad) = false ->
    let success_last :=
      final_state
        (WeatherPage.steps
           [Events.Issue; Events.Issue; Events.Arrive bad;
            Events.Arrive good]) s in
    let failure_last :=
      final_state
        (WeatherPage.steps
           [Events.Issue; Events.Issue; Events.Arrive good;
            Events.Arrive bad]) s in
    (shown (data success_last) = true
     /\ error success_last = Some error_message
     /\ error_shown (error success_last) = true
     /\ loading success_last = false)
    /\ (data failure_last = None
        /\ error failure_last = Some error_message
        /\ loading failure_last = false).
Proof.
  intros s good bad Hgood Hbad success_last failure_last.
  subst success_last failure_last.
  destruct (settle_accepted _ Hgood) as (d & url & Hsettle).
  split.
  - destruct (two_arrivals s bad good) as [->|[e Hthrow]].
    + rewrite Hsettle. simpl.
      destruct (settle_rejected _ (mkWorld
                  (mkState (data s) true (city s) (bgImage s) None)
                  [SetLoading true; SetError None;
                   SetLoading true; SetError None]) Hbad) as [_ ->].
      now repeat split.
    + destruct (settle_rejected _ (mkWorld
                  (mkState (data s) true (city s) (bgImage s) None)
                  [SetLoading true; SetError None;
                   SetLoading true; SetError None]) Hbad) as [Hout _].
      congruence.
  - destruct (two_arrivals s good bad) as [->|[e Hthrow]].
    + destruct (settle_rejected _
                  (snd (WeatherApi.fetchData_settle (WeatherApi.http_get good)
                          (mkWorld
                             (mkState (data s) true (city s) (bgImage s) None)
                             [SetLoading true; SetError None;
                              SetLoading true; SetError None]))) Hbad)
        as [_ ->].
      now repeat split.
    + rewrite Hsettle in Hthrow. discriminate.
Qed.

Lemma overlap_shows_data_and_error_witness :
  let env :=
    {| WeatherApi.VITE_WEATHER_API_KEY := Some "key";
       WeatherApi.http_get :=
         fun url =>
           if (url =? "good")%string
           then HttpResponse 200 (current_json (JStr "Sunny") 21.6)
           else NetworkFailure |} in
  let s' :=
    final_state
      (@WeatherPage.steps sample_conversions env
         [Events.Issue; Events.Issue; Events.Arrive "bad";
          Events.Arrive "good"])
      WeatherApi.initial in
  shown (data s') = true /\ error_shown (error s') = true.
Proof.
  intros env s'.
  destruct (@overlap_shows_data_and_error sample_conversions env
              WeatherApi.initial "good" "bad" eq_refl eq_refl)
    as [(Hdata & _ & Herror & _) _].
  split; [exact Hdata|exact Herror].
Defined.

(** X14. With two fetches in flight, the first answer to arrive clears
    the loading flag although the other request is still pending. *)
Theorem first_arrival_clears_loading
    {conv : Conversions} {env : WeatherApi.Env} :
  forall (s : WeatherApi.State) (url : string),
    loading
      (final_state
         (WeatherPage.steps [Events.Issue; Events.Issue; Events.Arrive url])
         s)
    = false.
Proof.
  intros s url. unfold final_state, run, WeatherPage.steps.
  cbn -[WeatherApi.fetchData_settle WeatherApi.API_URL].
  unfold bind, ret, WeatherPage.resume.
  set (w := mkWorld _ _).
  destruct (WeatherPage.accepted (WeatherApi.http_get url)) eqn:Haccepted.
  - destruct (settle_accepted _ Haccepted) as (d & u & ->). reflexivity.
  - destruct (settle_rejected _ w Haccepted) as [Hout Hstate].
    destruct (WeatherApi.fetchData_settle _ w) as [[[]|e] w1];
      simpl in *; [now rewrite Hstate|discriminate].
Qed.

(* ================================================================== *)
(** ** What the page of [src/App.tsx] shows around a fetch *)
(* ================================================================== *)

(** X15. While a fetch is in flight the page shows the spinner, no error
    block, and the data block of before: a snapshot on display stays on
    display next to the spinner until the answer arrives. *)
Theorem blocks_while_loading {conv : Conversions} {env : WeatherApi.Env} :
  forall s : WeatherApi.State,
    WeatherPage.blocks (final_state WeatherApi.fetchData_begin s)
    = cbind (WeatherPage.blocks s)
        (fun before =>
           Normal (WeatherPage.mkBlocks
                     (WeatherPage.input_value before) true
                     (WeatherPage.weather_block before) None)).
Proof.
  intros s. unfold WeatherPage.blocks, cbind.
  change (final_state WeatherApi.fetchData_begin s)
    with (mkState (data s) true (city s) (bgImage s) (@None string)).
  simpl. destruct (data s) as [d|]; [|reflexivity].
  now destruct (WeatherPage.weather_block_of d).
Qed.

(** X16. After a failed fetch the page of [src/App.tsx] shows the input
    box with the query as typed and the error block with the fixed
    message, and neither the spinner nor a data block; rendering it cannot
    throw. *)
Theorem blocks_after_failure {conv : Conversions} {env : WeatherApi.Env} :
  forall s : WeatherApi.State,
    WeatherApi.fetch_fails s = true ->
    WeatherPage.blocks (final_state WeatherApi.fetchData s)
    = Normal (WeatherPage.mkBlocks (city s) false None
                (Some "City not found. Please try again.")).
Proof.
  intros s Hfails. unfold final_state.
  destruct (fetchData_cases s) as [[Hok _]|[_ (before & _ & Hrun)]];
    [congruence|].
  now rewrite Hrun.
Qed.

Lemma blocks_after_failure_witness :
  @WeatherPage.blocks sample_conversions
    (final_state
       (@WeatherApi.fetchData sample_conversions
          (answering (HttpResponse 500 JNull)))
       showing_oslo)
  = Normal (WeatherPage.mkBlocks "Atlantis" false None
              (Some "City not found. Please try again.")).
Proof.
  apply (@blocks_after_failure sample_conversions
           (answering (HttpResponse 500 JNull)) showing_oslo).
  reflexivity.
Defined.

(** X17. After a successful fetch, whenever the page of [src/App.tsx]
    renders, it shows no spinner and no error block, and a data block
    whose heading is [location.name] of the body, whose condition is
    [current.condition.text], and whose minimum and maximum temperature
    texts are both the text of the current temperature. *)
Theorem blocks_after_success {conv : Conversions} {env : WeatherApi.Env} :
  forall (s : WeatherApi.State) (page : WeatherPage.Blocks),
    WeatherApi.fetch_fails s = false ->
    WeatherPage.blocks (final_state WeatherApi.fetchData s) = Normal page ->
    WeatherPage.input_value page = city s
    /\ WeatherPage.spinner page = false
    /\ WeatherPage.error_block page = None
    /\ exists status body block,
         WeatherApi.http_get (WeatherApi.API_URL (city s))
         = HttpResponse status body
         /\ WeatherPage.weather_block page = Some block
         /\ path body ["location"; "name"]
            = Normal (WeatherPage.heading block)
         /\ path body ["current"; "condition"; "text"]
            = Normal (WeatherPage.condition block)
         /\ WeatherPage.min_temp block = WeatherPage.temperature block
         /\ WeatherPage.max_temp block = WeatherPage.temperature block.
Proof.
  intros s page Hok Hpage.
  destruct (fetchData_cases s)
    as [[_ (response & d & url & Haxios & Hformat & _ & Hrun)]|[Hfails _]];
    [|congruence].
  unfold final_state in Hpage. rewrite Hrun in Hpage.
  unfold WeatherPage.blocks, cbind in Hpage. simpl in Hpage.
  destruct (WeatherPage.weather_block_of d) as [block|] eqn:Hblock;
    [|discriminate].
  injection Hpage as <-. simpl. repeat split.
  destruct (axios_settle_resolved _ _ Haxios) as [Hsettled _].
  destruct (formattedData_fields _ _ Hformat)
    as (_ & _ & Hmin & Hmax & _ & _ & Hname & text & Htext & Hdescs).
  exists (response_status response), (response_data response), block.
  unfold WeatherPage.weather_block_of, cbind,
    WeatherApi.temperature_text, WeatherApi.feels_like_text,
    WeatherApi.min_temp_text, WeatherApi.max_temp_text in Hblock.
  rewrite Hmin, Hmax in Hblock.
  destruct (WeatherApi.degrees (Main.temp (WeatherData.main d)))
    as [temperature|]; [|discriminate].
  destruct (WeatherApi.degrees (Main.feels_like (WeatherData.main d)));
    [|discriminate].
  destruct (ToString (Main.humidity (WeatherData.main d))); [|discriminate].
  destruct (ToString (Main.pressure (WeatherData.main d))); [|discriminate].
  injection Hblock as <-. simpl.
  repeat split; try assumption.
  destruct (WeatherData.weather d) as [|w rest]; [discriminate|].
  simpl in *. now injection Hdescs as -> _.
Qed.

Lemma blocks_after_success_witness :
  exists page block,
    @WeatherPage.blocks sample_conversions
      (final_state
         (@WeatherApi.fetchData sample_conversions
            (answering
               (HttpResponse 200
                  (JObj [ ("location", JObj [ ("name", JStr "Hunza") ]);
                          ("current",
                           JObj [ ("temp_c", JNum 21.6);
                                  ("feelslike_c", JNum 20.4);
                                  ("humidity", JStr "40");
                                  ("pressure_mb", JStr "1012");
                                  ("condition",
                                   JObj [ ("text", JStr "Clear");
                                          ("icon", JStr "//x.png") ]) ]) ]))))
         WeatherApi.initial)
    = Normal page
    /\ WeatherPage.weather_block page = Some block
    /\ WeatherPage.temperature block = "22°C"
    /\ WeatherPage.min_temp block = WeatherPage.temperature block.
Proof.
  eexists. eexists.
  split; [reflexivity|].
  split; [reflexivity|].
  split; [reflexivity|].
  match goal with
  | |- WeatherPage.min_temp ?b = _ =>
      destruct (@blocks_after_success sample_conversions
                  (answering
                     (HttpResponse 200
                        (JObj [ ("location", JObj [ ("name", JStr "Hunza") ]);
                                ("current",
                                 JObj [ ("temp_c", JNum 21.6);
                                        ("feelslike_c", JNum 20.4);
                                        ("humidity", JStr "40");
                                        ("pressure_mb", JStr "1012");
                                        ("condition",
                                         JObj [ ("text", JStr "Clear");
                                                ("icon", JStr "//x.png") ]) ]) ])))
                  WeatherApi.initial _ eq_refl eq_refl)
        as (_ & _ & _ & status & body & block & _ & Hblock & _ & _ & Hmin & _)
  end.
  injection Hblock as <-. exact Hmin.
Defined.

(* ================================================================== *)
(** ** More on the RapidAPI version *)
(* ================================================================== *)

(** X18. In the RapidAPI version a [main] equal to a key of the table
    selects that key's URL: for every entry, [updateBackground] called
    with the key hands the entry's URL to [setBgImage]. *)
Theorem own_key_selects_its_url {conv : Conversions} :
  forall (key url : string) (s : RapidApi.State),
    In (key, url) RapidApi.backgroundImages ->
    run (RapidApi.updateBackground (JStr key)) s
    = (Normal tt,
       mkWorld (mkState (data s) (loading s) (city s) (RapidApi.Url url)
                        (error s))
               [SetBgImage (RapidApi.Url url)]).
Proof.
  intros key url s Hin. simpl in Hin.
  repeat (destruct Hin as [Heq|Hin];
          [injection Heq as <- <-; reflexivity|]).
  destruct Hin.
Qed.

Lemma own_key_selects_its_url_witness :
  bgImage (final_state
             (@RapidApi.updateBackground sample_conversions (JStr "Clouds"))
             RapidApi.initial)
  = RapidApi.Url "https://images.unsplash.com/photo-1483977399921-6cf94f6fdc3a".
Proof.
  unfold final_state.
  rewrite (@own_key_selects_its_url sample_conversions "Clouds"
             "https://images.unsplash.com/photo-1483977399921-6cf94f6fdc3a"
             RapidApi.initial).
  - reflexivity.
  - simpl. tauto.
Defined.

(** X19. In the RapidAPI version the fetch accepts a body that the page
    cannot render: when the body of an accepted answer has no [main] (it
    is [undefined] or [null]), the body is stored as the data, no error is
    set, and rendering the data block throws. *)
Theorem accepted_body_can_break_render
    {conv : Conversions} {env : RapidApi.Env} :
  forall (s : RapidApi.State) (status : Z) (body main : JsVal),
    RapidApi.http_request (RapidApi.options_for (city s))
    = HttpResponse status body ->
    RapidApi.fetch_fails s = false ->
    get body "main" = Normal main ->
    nullish main = true ->
    data (final_state RapidApi.fetchData s) = body
    /\ error (final_state RapidApi.fetchData s) = None
    /\ completes (RapidPage.blocks (final_state RapidApi.fetchData s))
       = false.
Proof.
  intros s status body main Hsettled Hok Hmain Hnull.
  destruct (rapid_fetchData_cases s)
    as [[_ (response & first & key & Haxios & Hfirst & _ & Hrun)]
       |[Hfails _]]; [|congruence].
  destruct (axios_settle_resolved _ _ Haxios) as [Hresolved _].
  rewrite Hsettled in Hresolved. injection Hresolved as _ Hbody.
  rewrite <- Hbody in *.
  unfold final_state. rewrite Hrun. simpl.
  split; [reflexivity|split; [reflexivity|]].
  unfold RapidPage.blocks. simpl data.
  rewrite (first_main_object _ _ Hfirst).
  unfold RapidPage.weather_block_of, RapidPage.main_degrees, cbind.
  rewrite Hmain, (get_of_nullish main "temp" Hnull).
  destruct (get body "name"); [|reflexivity].
  destruct (RapidPage.first_weather body "description"); [|reflexivity].
  destruct (RapidPage.first_weather body "icon") as [icon|]; [|reflexivity].
  now destruct (ToString icon).
Qed.

Lemma accepted_body_can_break_render_witness :
  @RapidApi.fetch_fails sample_conversions
     (rapid_answering (HttpResponse 200 (JObj [ ("weather", JArr []) ])))
     RapidApi.initial = false
  /\ completes
       (@RapidPage.blocks sample_conversions
          (final_state
             (@RapidApi.fetchData sample_conversions
                (rapid_answering
                   (HttpResponse 200 (JObj [ ("weather", JArr []) ]))))
             RapidApi.initial))
     = false.
Proof.
  split; [reflexivity|].
  apply (@accepted_body_can_break_render sample_conversions
           (rapid_answering (HttpResponse 200 (JObj [ ("weather", JArr []) ])))
           RapidApi.initial 200%Z (JObj [ ("weather", JArr []) ]) JUndefined);
    reflexivity.
Defined.

Section RapidSessions.
Import RapidApi.
Context {conv : Conversions} {env : Env}.

(** No answer names a member of [Object.prototype] as its first [main]. *)
Hypothesis plain_keys :
  forall options status body main key,
    http_request options = HttpResponse status body ->
    first_main body = Normal main ->
    ToString main = Normal key ->
    existsb (String.eqb key) Object_prototype = false.

Lemma own_property_listed (key url : string)
    (table : list (string * string)) :
  own_property key table = Some url -> In url (map snd table).
Proof.
  induction table as [|[k u] rest IH]; simpl; [discriminate|].
  destruct (k =? key)%string.
  - intros [= ->]. now left.
  - intros Hrest. right. now apply IH.
Qed.

Lemma or_default_range (key : string) :
  existsb (String.eqb key) Object_prototype = false ->
  exists url, or_default (lookup key) = Url url
              /\ In url (map snd backgroundImages).
Proof.
  intros Hproto. unfold lookup. rewrite Hproto.
  destruct (own_property key backgroundImages) as [url|] eqn:Hown.
  - unfold or_default. destruct (url =? "")%string.
    + exists default_url. split; [reflexivity|]. simpl. tauto.
    + exists url. split; [reflexivity|].
      eapply own_property_listed. exact Hown.
  - exists default_url. split; [reflexivity|]. simpl. tauto.
Qed.

Lemma appends_only_rapid_fetchData : appends_only fetchData.
Proof.
  unfold fetchData, fetchData_begin, fetchData_settle, try_block,
    catch_block, finally_block, updateBackground, setData, setError,
    setLoading, setBgImage.
  frames.
Qed.

Lemma rapid_fetchData_at_rest (s : State) :
  (bgImage s = Url ""
   \/ (exists url, bgImage s = Url url
                   /\ In url (map snd backgroundImages))) ->
  outcome fetchData s = Normal tt
  /\ rapid_at_rest (final_state fetchData s)
  /\ city (final_state fetchData s) = city s.
Proof.
  intros Hbg. unfold outcome, final_state, rapid_at_rest.
  destruct (rapid_fetchData_cases s)
    as [[_ (response & main & key & Haxios & Hmain & Hkey & Hrun)]
       |[_ (before & _ & Hrun)]]; rewrite Hrun; simpl.
  - rewrite (first_main_object _ _ Hmain). repeat split; auto.
    right. apply or_default_range.
    destruct (axios_settle_resolved _ _ Haxios) as [Hsettled _].
    exact (plain_keys _ _ _ _ _ Hsettled Hmain Hkey).
  - repeat split; auto.
Qed.

Lemma appends_only_rapid_handle (input : Events.Input) :
  appends_only (RapidPage.handle input).
Proof.
  destruct input; simpl; try apply appends_only_rapid_fetchData.
  - apply appends_only_write.
  - unfold Events.onKeyPress. frames. apply appends_only_rapid_fetchData.
Qed.

Lemma appends_only_rapid_session (inputs : list Events.Input) :
  appends_only (RapidPage.session inputs).
Proof.
  induction inputs as [|input rest IH]; simpl.
  - apply appends_only_ret.
  - apply appends_only_bind;
      [apply appends_only_rapid_handle|intros _; exact IH].
Qed.

Lemma rapid_handle_at_rest (input : Events.Input) (s : State) :
  rapid_at_rest s ->
  outcome (RapidPage.handle input) s = Normal tt
  /\ rapid_at_rest (final_state (RapidPage.handle input) s)
  /\ city (final_state (RapidPage.handle input) s) = typed [input] (city s).
Proof.
  intros Hrest.
  assert (Hbg := proj2 (proj2 (proj2 Hrest))).
  destruct input as [|value|key|]; simpl;
    try (apply rapid_fetchData_at_rest; exact Hbg).
  - repeat split; apply Hrest.
  - unfold Events.onKeyPress. destruct (key =? "Enter")%string.
    + apply rapid_fetchData_at_rest; exact Hbg.
    + repeat split; apply Hrest.
Qed.

Lemma rapid_session_at_rest_from (inputs : list Events.Input) (s : State) :
  rapid_at_rest s ->
  outcome (RapidPage.session inputs) s = Normal tt
  /\ rapid_at_rest (final_state (RapidPage.session inputs) s)
  /\ city (final_state (RapidPage.session inputs) s)
     = typed inputs (city s).
Proof.
  revert s. induction inputs as [|input rest IH]; intros s Hrest.
  - repeat split; apply Hrest.
  - destruct (rapid_handle_at_rest input s Hrest) as (Hout & Hnext & Hcity).
    destruct (final_state_bind (RapidPage.handle input)
                (fun _ => RapidPage.session rest) s tt
                (appends_only_rapid_handle input)
                (fun _ => appends_only_rapid_session rest) Hout)
      as (Hfinal & Houtcome & _).
    change (RapidPage.session (input :: rest))
      with (bind (RapidPage.handle input)
                 (fun _ => RapidPage.session rest)).
    rewrite Hfinal, Houtcome.
    destruct (IH _ Hnext) as (Hout' & Hrest' & Hcity').
    split; [exact Hout'|split; [exact Hrest'|]].
    rewrite Hcity', Hcity. reflexivity.
Qed.

End RapidSessions.

(** X20. Suppose no answer of the network names a member of
    [Object.prototype] as its first [main], so that [setBgImage] is only
    ever handed a URL.  Then, from the initial state, after any list of
    inputs handled one after the other, the state cells of the RapidAPI
    version are at rest: no handler threw, nothing is loading, the error
    is absent or the fixed message, the data and the error are not both
    set, the background is the empty string or a URL of the table, and the
    query is the last text typed ("skardu" if none). *)
Theorem rapid_session_ends_at_rest
    {conv : Conversions} {env : RapidApi.Env} :
  (forall options status body main key,
      RapidApi.http_request options = HttpResponse status body ->
      RapidApi.first_main body = Normal main ->
      ToString main = Normal key ->
      existsb (String.eqb key) RapidApi.Object_prototype = false) ->
  forall inputs : list Events.Input,
    outcome (RapidPage.session inputs) RapidApi.initial = Normal tt
    /\ rapid_at_rest (final_state (RapidPage.session inputs) RapidApi.initial)
    /\ city (final_state (RapidPage.session inputs) RapidApi.initial)
       = typed inputs "skardu".
Proof.
  intros Hplain inputs. apply (rapid_session_at_rest_from Hplain).
  unfold rapid_at_rest. simpl. repeat split; auto.
Qed.

Lemma rapid_session_ends_at_rest_witness :
  rapid_at_rest
    (final_state
       (@RapidPage.session sample_conversions
          (rapid_answering (HttpResponse 200 (city_json (JStr "Rain"))))
          [Events.Mount; Events.Change "Gilgit"; Events.Click])
       RapidApi.initial)
  /\ bgImage
       (final_state
          (@RapidPage.session sample_conversions
             (rapid_answering (HttpResponse 200 (city_json (JStr "Rain"))))
             [Events.Mount; Events.Change "Gilgit"; Events.Click])
          RapidApi.initial)
     = RapidApi.Url
         "https://images.unsplash.com/photo-1438449805895-5918d2267f19".
Proof.
  split; [|reflexivity].
  refine (proj1 (proj2 (@rapid_session_ends_at_rest sample_conversions
                          (rapid_answering
                             (HttpResponse 200 (city_json (JStr "Rain"))))
                          _ [Events.Mount; Events.Change "Gilgit";
                             Events.Click]))).
  intros options status body main key Hsettled Hmain Hkey.
  injection Hsettled as _ <-.
  injection Hmain as <-. injection Hkey as <-. reflexivity.
Defined.

(* ================================================================== *)
(** ** The request *)
(* ================================================================== *)

Lemma list_ascii_of_append (a b : string) :
  list_ascii_of_string (a ++ b)
  = (list_ascii_of_string a ++ list_ascii_of_string b)%list.
Proof. induction a as [|c a IH]; simpl; [reflexivity|now rewrite IH]. Qed.

Lemma append_inv_head (p a b : string) :
  (p ++ a = p ++ b)%string -> a = b.
Proof.
  induction p as [|c p IH]; simpl; [auto|].
  intros [= Heq]. now apply IH.
Qed.

Lemma append_inv_tail (a b t : string) :
  (a ++ t = b ++ t)%string -> a = b.
Proof.
  intros Heq. apply (f_equal list_ascii_of_string) in Heq.
  rewrite !list_ascii_of_append in Heq. apply app_inv_tail in Heq.
  rewrite <- (string_of_list_ascii_of_string a),
          <- (string_of_list_ascii_of_string b).
  now rewrite Heq.
Qed.

(** X21. The query is put into the request address as typed, between a
    fixed head and a fixed tail, so the address determines the query: two
    queries that differ, be it by a space or by letter case, give two
    different addresses.  This holds in both versions. *)
Theorem request_determines_query
    {env : WeatherApi.Env} {renv : RapidApi.Env} :
  forall c1 c2 : string,
    (WeatherApi.API_URL c1 = WeatherApi.API_URL c2 -> c1 = c2)
    /\ (RapidApi.url (RapidApi.options_for c1)
        = RapidApi.url (RapidApi.options_for c2) -> c1 = c2).
Proof.
  intros c1 c2. split.
  - unfold WeatherApi.API_URL. intros Heq.
    apply append_inv_head in Heq. apply append_inv_head in Heq.
    apply append_inv_head in Heq. now apply append_inv_tail in Heq.
  - unfold RapidApi.options_for. cbn [RapidApi.url]. intros Heq.
    apply append_inv_head in Heq. now apply append_inv_tail in Heq.
Qed.

Lemma request_determines_query_witness :
  @WeatherApi.API_URL (answering NetworkFailure) "Paris"
  <> @WeatherApi.API_URL (answering NetworkFailure) "paris".
Proof.
  intros Heq.
  apply (proj1 (@request_determines_query (answering NetworkFailure)
                  (rapid_answering NetworkFailure) "Paris" "paris")) in Heq.
  discriminate.
Defined.
